(** * CombinedMemory-v2-SSE: the memory store of [src/index.ts]

    A shallow embedding of [CombinedMemoryServer.addMemory] and
    [CombinedMemoryServer.searchMemories] together with the parts of the
    JavaScript runtime and of the key-value backend they call.

    Conventions of the model.
    - Texts are [string]s of ASCII characters; on them [toLowerCase] folds
      the letters A-Z one by one.  The runtime's mapping of other
      characters is not modelled.
    - A [Date] is its [getTime()] value, an integer number of milliseconds
      since the epoch ([Z]); only valid dates are represented.
    - The backend (DragonflyDB behind ioredis) is a pair of finite maps, one
      for the string keys [memory:<userId>:<id>] and one for the set keys
      [search:<userId>]; the two families never share a key.  A stored
      string is represented by what lines 157-162 of the source make of it
      (see [RedisValue]).
    - Every awaited backend command has an [Outcome] chosen by the
      environment: it may resolve, be refused, or time out after the backend
      has applied it ([commandTimeout], line 38). *)

From Stdlib Require Import ZArith Ascii String DecimalString.
From stdpp Require Import base decidable option list gmap strings sorting.

Open Scope string_scope.
Open Scope list_scope.
Open Scope Z_scope.

(** ** The runtime: strings *)

Module JS.

(** [String.prototype.toLowerCase] on texts of ASCII characters, where it
    folds A-Z character by character.  On other characters the runtime's
    mapping (with its rule for a final sigma) differs from this one, so a
    statement that uses more of [toLowerCase] than its being a function
    is a statement about ASCII texts. *)
Definition lowerChar (c : ascii) : ascii :=
  let n := nat_of_ascii c in
  if ((65 <=? n)%nat && (n <=? 90)%nat)%bool then ascii_of_nat (n + 32) else c.

Fixpoint toLowerCase (s : string) : string :=
  match s with
  | EmptyString => EmptyString
  | String c s' => String (lowerChar c) (toLowerCase s')
  end.

(** [s.includes(sub)]: [sub] occurs in [s] at some position. *)
Fixpoint includes (s sub : string) : bool :=
  String.prefix sub s ||
  match s with
  | EmptyString => false
  | String _ s' => includes s' sub
  end.

(** [s.substring(start, end)] for [start <= end]; indices past the end of
    [s] are clamped to its length. *)
Definition substring (start end_ : nat) (s : string) : string :=
  String.substring start (end_ - start) s.

(** [String(n)] for a non-negative integer, as template literals print it. *)
Definition ofNat (n : nat) : string := NilEmpty.string_of_uint (Nat.to_uint n).

(** [parts.join(sep)]. *)
Fixpoint join (sep : string) (parts : list string) : string :=
  match parts with
  | [] => ""
  | [p] => p
  | p :: rest => p +:+ sep +:+ join sep rest
  end.

(** [s.split(sep)[0]] for a one-character separator: the text before the
    first occurrence of [sep], or all of [s]. *)
Fixpoint splitHead (sep : ascii) (s : string) : string :=
  match s with
  | EmptyString => EmptyString
  | String c s' => if Ascii.eqb c sep then EmptyString else String c (splitHead sep s')
  end.

(** ** The runtime: dates *)

Definition digit (n : Z) : ascii := ascii_of_nat (48 + Z.to_nat (n mod 10)).
Definition pad2 (n : Z) : string := String (digit (n / 10)) (String (digit n) "").
Definition pad3 (n : Z) : string := String (digit (n / 100)) (pad2 n).
Definition pad4 (n : Z) : string := String (digit (n / 1000)) (pad3 n).
Definition pad6 (n : Z) : string :=
  String (digit (n / 100000)) (String (digit (n / 10000)) (pad4 n)).

(** Year, month and day of the proleptic Gregorian calendar for a day count
    relative to 1970-01-01. *)
Definition civilFromDays (days : Z) : Z * Z * Z :=
  let z := days + 719468 in
  let era := z / 146097 in
  let doe := z mod 146097 in
  let yoe := (doe - doe / 1460 + doe / 36524 - doe / 146096) / 365 in
  let doy := doe - (365 * yoe + yoe / 4 - yoe / 100) in
  let mp := (5 * doy + 2) / 153 in
  let d := doy - (153 * mp + 2) / 5 + 1 in
  let m := if mp <? 10 then mp + 3 else mp - 9 in
  let y := yoe + era * 400 in
  (if m <=? 2 then y + 1 else y, m, d).

Definition isoYear (y : Z) : string :=
  if ((0 <=? y) && (y <=? 9999))%bool then pad4 y
  else (if y <? 0 then "-" else "+") +:+ pad6 (Z.abs y).

(** The date part [YYYY-MM-DD] of [Date.prototype.toISOString]. *)
Definition isoDate (t : Z) : string :=
  let '(y, m, d) := civilFromDays (t / 86400000) in
  isoYear y +:+ "-" +:+ pad2 m +:+ "-" +:+ pad2 d.

(** The time part [HH:mm:ss.sssZ]. *)
Definition isoTime (t : Z) : string :=
  let ms := t mod 86400000 in
  pad2 (ms / 3600000) +:+ ":" +:+ pad2 (ms / 60000 mod 60) +:+ ":" +:+
  pad2 (ms / 1000 mod 60) +:+ "." +:+ pad3 (ms mod 1000) +:+ "Z".

(** [Date.prototype.toISOString]. *)
Definition toISOString (t : Z) : string := isoDate t +:+ "T" +:+ isoTime t.

End JS.

(** ** Data model *)

(** [interface Memory] (lines 10-15). *)
Record Memory : Type := {
  id : string;
  content : string;
  userId : string;
  timestamp : Z;
}.

#[global] Instance Memory_eq_dec : EqDecision Memory.
Proof. solve_decision. Defined.

(** One element of a tool result: [{ type: "text", text }]. *)
Record Content : Type := { type : string; text : string }.

#[global] Instance Content_eq_dec : EqDecision Content.
Proof. solve_decision. Defined.

(** The arguments of the two tools before [schema.parse]: [userId] may be
    left out. *)
Record AddArgs : Type := { add_content : string; add_userId : option string }.
Record SearchArgs : Type := { search_query : string; search_userId : option string }.

Definition quote : string := String "034"%char "".
Definition newline : string := String "010"%char "".

(** ** The backend *)

(** What a string stored under a [memory:...] key is to the reader of
    lines 155-165. *)
Inductive RedisValue : Type :=
  | Blank
      (** the empty string: falsy, skipped by [if (memoryData)] *)
  | Malformed
      (** a text on which [JSON.parse], or the reads of [content] that
          follow it, throw *)
  | Serialized (memory : Memory)
      (** [JSON.stringify] of a record with an ISO timestamp; [JSON.parse]
          and [new Date] give its fields back *).

#[global] Instance RedisValue_eq_dec : EqDecision RedisValue.
Proof. solve_decision. Defined.

Record Redis : Type := {
  strings : gmap string RedisValue;
  sets : gmap string (gset string);
}.

(** How an awaited command ends. *)
Inductive Outcome : Type :=
  | Resolves      (** applied by the backend, the promise resolves *)
  | Rejects       (** not applied, the promise rejects *)
  | RejectsLate   (** applied by the backend, the promise rejects on timeout *).

(** The environment's choice for the n-th command of a request. *)
Definition Net : Type := nat → Outcome.

Definition healthy : Net := λ _, Resolves.
Definition unreachable : Net := λ _, Rejects.

(** Code that awaits backend commands and may throw: it reads the
    environment, counts the commands sent, updates the backend and either
    returns a value or throws. *)
Definition Try (A : Type) : Type := Net → nat → Redis → nat * Redis * option A.

#[global] Instance Try_ret : MRet Try := λ A a _ n r, (n, r, Some a).
#[global] Instance Try_bind : MBind Try := λ A B f m net n r,
  match m net n r with
  | (n', r', Some a) => f a net n' r'
  | (n', r', None) => (n', r', None)
  end.

Definition throw {A} : Try A := λ _ n r, (n, r, None).

Definition command {A} (effect : Redis → Redis) (reply : Redis → A) : Try A :=
  λ net n r,
    match net n with
    | Resolves => (S n, effect r, Some (reply r))
    | Rejects => (S n, r, None)
    | RejectsLate => (S n, effect r, None)
    end.

Definition members (key : string) (r : Redis) : gset string :=
  default ∅ (sets r !! key).

Definition redis_set (key : string) (value : RedisValue) : Try unit :=
  command (λ r, {| strings := <[key := value]> (strings r); sets := sets r |}) (λ _, ()).

Definition redis_sadd (key member : string) : Try unit :=
  command (λ r, {| strings := strings r;
                   sets := <[key := {[member]} ∪ members key r]> (sets r) |}) (λ _, ()).

Definition redis_get (key : string) : Try (option RedisValue) :=
  command (λ r, r) (λ r, strings r !! key).

Definition redis_smembers (key : string) : Try (list string) :=
  command (λ r, r) (λ r, elements (members key r)).

(** ** The server *)

(** The two stores: the backend behind [this.redis] and the array
    [this.memories]. *)
Record Server : Type := {
  redis : Redis;
  memories : list Memory;
}.

Definition emptyServer : Server :=
  {| redis := {| strings := ∅; sets := ∅ |}; memories := [] |}.

(** [z.string().default("quinn_may")]: the default replaces [undefined]
    only. *)
Definition DEFAULT_USER_ID : string := "quinn_may".

Definition schema_userId (given : option string) : string :=
  default DEFAULT_USER_ID given.

Definition memoryKey (userId id : string) : string :=
  "memory:" +:+ userId +:+ ":" +:+ id.

Definition searchKey (userId : string) : string := "search:" +:+ userId.

(** What the environment supplies to one [addMemory] call: the text of
    [Math.random().toString(36)], the clock, and the network. *)
Record AddEnv : Type := {
  random36 : string;
  now : Z;
  add_net : Net;
}.

(** Lines 100-105. *)
Definition newMemory (env : AddEnv) (args : AddArgs) : Memory :=
  {| id := JS.substring 2 15 (random36 env);
     content := add_content args;
     userId := schema_userId (add_userId args);
     timestamp := now env |}.

(** The guarded block of lines 107-123. *)
Definition storeInDragonfly (memory : Memory) : Try unit :=
  let memoryKey := memoryKey (userId memory) (id memory) in
  let memoryData := Serialized memory in
  _ ← redis_set memoryKey memoryData;
  let userSearchKey := searchKey (userId memory) in
  redis_sadd userSearchKey (id memory).

Definition addedText (userId content : string) : string :=
  "Memory added successfully for user " +:+ userId +:+ ": " +:+ quote +:+
  JS.substring 0 100 content +:+
  (if (100 <? String.length content)%nat then "..." else "") +:+ quote.

(** [addMemory] (lines 92-136). *)
Definition addMemory (env : AddEnv) (args : AddArgs) (s : Server) : Server * list Content :=
  let memory := newMemory env args in
  let '(_, redis', attempt) := storeInDragonfly memory (add_net env) 0%nat (redis s) in
  let memories' :=
    match attempt with
    | Some _ => memories s
    | None => memories s ++ [memory]
    end in
  ({| redis := redis'; memories := memories' |},
   [ {| type := "text"; text := addedText (userId memory) (content memory) |} ]).

(** The test of line 162 and 175. *)
Definition matchesQuery (queryLower : string) (memory : Memory) : bool :=
  JS.includes (JS.toLowerCase (content memory)) queryLower.

(** The loop of lines 153-166, pushing onto [matchingMemories]. *)
Fixpoint scan (userId queryLower : string) (memoryIds : list string)
    (matchingMemories : list Memory) : Try (list Memory) :=
  match memoryIds with
  | [] => mret matchingMemories
  | memoryId :: rest =>
      memoryData ← redis_get (memoryKey userId memoryId);
      match memoryData with
      | None | Some Blank => scan userId queryLower rest matchingMemories
      | Some Malformed => throw
      | Some (Serialized memory) =>
          if matchesQuery queryLower memory
          then scan userId queryLower rest (matchingMemories ++ [memory])
          else scan userId queryLower rest matchingMemories
      end
  end.

(** The guarded block of lines 148-168. *)
Definition searchInDragonfly (userId queryLower : string) : Try (list Memory) :=
  memoryIds ← redis_smembers (searchKey userId);
  scan userId queryLower memoryIds [].

(** The handler of lines 172-176. *)
Definition searchInMemory (user queryLower : string) (memories : list Memory) : list Memory :=
  filter (λ memory, userId memory = user ∧ matchesQuery queryLower memory = true)
         memories.

(** [Array.prototype.sort] with the comparator of line 180,
    [(a, b) => b.timestamp.getTime() - a.timestamp.getTime()]: the sort is
    stable, so an element is placed before the first one that is not
    strictly more recent. *)
Fixpoint insertByTimestamp (a : Memory) (sorted : list Memory) : list Memory :=
  match sorted with
  | [] => [a]
  | b :: rest =>
      if timestamp b - timestamp a >? 0
      then b :: insertByTimestamp a rest
      else a :: sorted
  end.

Definition sortByTimestamp (matchingMemories : list Memory) : list Memory :=
  foldr insertByTimestamp [] matchingMemories.

(** The callback of lines 194-196. *)
Definition renderMemory (index : nat) (memory : Memory) : string :=
  JS.ofNat (index + 1) +:+ ". [" +:+
  JS.splitHead "T" (JS.toISOString (timestamp memory)) +:+ "] " +:+ content memory.

(** Lines 192-197. *)
Definition resultsText (matchingMemories : list Memory) : string :=
  JS.join (newline +:+ newline) (imap renderMemory (take 10 matchingMemories)).

Definition notFoundText (query : string) : string :=
  "No memories found for query: " +:+ quote +:+ query +:+ quote.

Definition foundText (query : string) (matchingMemories : list Memory) : string :=
  "Found " +:+ JS.ofNat (length matchingMemories) +:+ " matching memories for " +:+
  quote +:+ query +:+ quote +:+ ":" +:+ newline +:+ newline +:+
  resultsText matchingMemories.

(** Lines 145-177: the matches as collected, from the backend when the
    guarded block completes and from [this.memories] when it throws,
    together with the backend as the commands left it. *)
Definition collectMatches (net : Net) (args : SearchArgs) (s : Server) : Redis * list Memory :=
  let userId := schema_userId (search_userId args) in
  let queryLower := JS.toLowerCase (search_query args) in
  let '(_, redis', attempt) := searchInDragonfly userId queryLower net 0%nat (redis s) in
  (redis',
   match attempt with
   | Some matchingMemories => matchingMemories
   | None => searchInMemory userId queryLower (memories s)
   end).

(** Lines 182-204. *)
Definition formatResults (query : string) (matchingMemories : list Memory) : list Content :=
  if (length matchingMemories =? 0)%nat
  then [ {| type := "text"; text := notFoundText query |} ]
  else [ {| type := "text"; text := foundText query matchingMemories |} ].

(** [searchMemories] (lines 138-205).  [filter] builds a fresh array, so
    sorting [matchingMemories] in place leaves [this.memories] as it was. *)
Definition searchMemories (net : Net) (args : SearchArgs) (s : Server) : Server * list Content :=
  let '(redis', matchingMemories) := collectMatches net args s in
  let matchingMemories := sortByTimestamp matchingMemories in
  ({| redis := redis'; memories := memories s |},
   formatResults (search_query args) matchingMemories).

(** Which store served a request. *)
Inductive Store : Type := Primary | Fallback.

#[global] Instance Store_eq_dec : EqDecision Store.
Proof. solve_decision. Defined.

Definition writtenTo (env : AddEnv) (args : AddArgs) (s : Server) : Store :=
  match storeInDragonfly (newMemory env args) (add_net env) 0%nat (redis s) with
  | (_, _, Some _) => Primary
  | (_, _, None) => Fallback
  end.

Definition searchedIn (net : Net) (args : SearchArgs) (s : Server) : Store :=
  match searchInDragonfly (schema_userId (search_userId args))
          (JS.toLowerCase (search_query args)) net 0%nat (redis s) with
  | (_, _, Some _) => Primary
  | (_, _, None) => Fallback
  end.

(** The digest of a search: the text of its single result element. *)
Definition digest (result : Server * list Content) : string :=
  match result.2 with
  | c :: _ => text c
  | [] => ""
  end.

(** ** The server as a transition system *)

(** The requests of the core. *)
Inductive Request : Type :=
  | AddMemory (env : AddEnv) (args : AddArgs)
  | SearchMemories (net : Net) (args : SearchArgs).

Definition handle (req : Request) (s : Server) : Server * list Content :=
  match req with
  | AddMemory env args => addMemory env args s
  | SearchMemories net args => searchMemories net args s
  end.

(** ** Vocabulary of the statements *)

(** The record a scan finds for an index entry, if it is a readable one. *)
Definition lookupRecord (r : Redis) (userId memoryId : string) : option Memory :=
  match strings r !! memoryKey userId memoryId with
  | Some (Serialized memory) => Some memory
  | _ => None
  end.

(** What a completed scan collects: the readable records of the index
    entries, in the order of the entries, that match the query. *)
Definition primaryMatches (r : Redis) (userId queryLower : string) (memoryIds : list string) :
    list Memory :=
  List.filter (matchesQuery queryLower) (omap (lookupRecord r userId) memoryIds).

(** [a] is at least as recent as [b]. *)
Definition newerFirst (a b : Memory) : Prop := timestamp b ≤ timestamp a.

Definition sameTime (t : Z) (m : Memory) : Prop := timestamp m = t.

#[global] Instance newerFirst_dec (a b : Memory) : Decision (newerFirst a b).
Proof. unfold newerFirst. apply _. Defined.

#[global] Instance sameTime_dec (t : Z) (m : Memory) : Decision (sameTime t m).
Proof. unfold sameTime. apply _. Defined.

(** [x] is at least as recent as [m]: the memories that are rendered
    before or level with [m]. *)
Definition notOlderThan (m x : Memory) : Prop := timestamp m ≤ timestamp x.

#[global] Instance notOlderThan_dec (m x : Memory) : Decision (notOlderThan m x).
Proof. unfold notOlderThan. apply _. Defined.

(** The backend after [redis.set] of line 117 has been applied. *)
Definition withRecord (memory : Memory) (r : Redis) : Redis :=
  {| strings := <[memoryKey (userId memory) (id memory) := Serialized memory]> (strings r);
     sets := sets r |}.

(** The backend after [redis.sadd] of line 121 has been applied. *)
Definition withIndexEntry (memory : Memory) (r : Redis) : Redis :=
  {| strings := strings r;
     sets := <[searchKey (userId memory) :=
                 {[id memory]} ∪ members (searchKey (userId memory)) r]> (sets r) |}.

(** ** Scenarios *)

Module Scenario.

(** An [addMemory] call at time [t] while the backend refuses every
    command. *)
Definition forcedFailure (t : Z) : AddEnv :=
  {| random36 := "0.4fzyo82mvyr"; now := t; add_net := unreachable |}.

(** An [addMemory] call at time [t] with a working backend; [random36] is
    the text of the random number drawn. *)
Definition working (random36 : string) (t : Z) : AddEnv :=
  {| random36 := random36; now := t; add_net := healthy |}.

(** The record is written, the index update is refused. *)
Definition indexRefused : Net :=
  λ n, match n with O => Resolves | _ => Rejects end.

Definition note (content userId : string) : AddArgs :=
  {| add_content := content; add_userId := Some userId |}.

Definition ask (query userId : string) : SearchArgs :=
  {| search_query := query; search_userId := Some userId |}.

Definition addAll (env : AddEnv) (userId : string) (contents : list string) (s : Server) : Server :=
  foldl (λ s content, (addMemory env (note content userId) s).1) s contents.

Definition teas : list string :=
  [ "green tea"; "black tea"; "white tea"; "oolong tea"; "mint tea";
    "jasmine tea"; "chai tea"; "iced tea"; "herbal tea"; "matcha tea" ].

(** Ten notes about tea written within one millisecond during an outage. *)
Definition tenTeas : Server := addAll (forcedFailure 1700000000000) "u1" teas emptyServer.

End Scenario.

Module Corrupted.

Definition likesTea : Memory :=
  {| id := "b"; content := "likes tea"; userId := "u1"; timestamp := 1700000000000 |}.

(** The index of "u1" lists two entries; the record of the first is not
    JSON, the record of the second is a memory. *)
Definition server : Server :=
  {| redis :=
       {| strings :=
            <[memoryKey "u1" "a" := Malformed]>
              (<[memoryKey "u1" "b" := Serialized likesTea]> ∅);
          sets := <[searchKey "u1" := {["a"; "b"]}]> ∅ |};
     memories := [] |}.

(** The same server with the first record missing: a dangling entry. *)
Definition dangling : Server :=
  {| redis :=
       {| strings := <[memoryKey "u1" "b" := Serialized likesTea]> ∅;
          sets := <[searchKey "u1" := {["a"; "b"]}]> ∅ |};
     memories := [] |}.

End Corrupted.

Module Ordering.

Definition day : Z := 86400000.

(** Three notes written on three consecutive days through a working
    backend. *)
Definition threeNotes : Server :=
  let s := emptyServer in
  let s := (addMemory (Scenario.working "0.a1b2c3d4e5f" 1700000000000)
              (Scenario.note "tea on monday" "u1") s).1 in
  let s := (addMemory (Scenario.working "0.c7d8e9f0g1h" (1700000000000 + day))
              (Scenario.note "tea on tuesday" "u1") s).1 in
  (addMemory (Scenario.working "0.b4c5d6e7f8g" (1700000000000 + 2 * day))
     (Scenario.note "tea on wednesday" "u1") s).1.

Definition monday : Memory :=
  {| id := "a1b2c3d4e5f"; content := "tea on monday"; userId := "u1";
     timestamp := 1700000000000 |}.
Definition tuesday : Memory :=
  {| id := "c7d8e9f0g1h"; content := "tea on tuesday"; userId := "u1";
     timestamp := 1700000000000 + day |}.
Definition wednesday : Memory :=
  {| id := "b4c5d6e7f8g"; content := "tea on wednesday"; userId := "u1";
     timestamp := 1700000000000 + 2 * day |}.

End Ordering.

Module Truncation.

Definition moreTeas : list string :=
  [ "rooibos tea"; "earl grey tea"; "assam tea"; "darjeeling tea"; "sencha tea" ].

(** Fifteen notes about tea held by the Fallback Store. *)
Definition fifteenTeas : Server :=
  Scenario.addAll (Scenario.forcedFailure 1700000000000) "u1" moreTeas Scenario.tenTeas.

End Truncation.

(** ** Identifiers *)

(** A digit of radix 36, as [toString(36)] prints it: [0-9a-z]. *)
Definition isBase36 (c : ascii) : bool :=
  let n := nat_of_ascii c in
  ((48 <=? n)%nat && (n <=? 57)%nat) || ((97 <=? n)%nat && (n <=? 122)%nat).

Fixpoint allBase36 (s : string) : bool :=
  match s with
  | EmptyString => true
  | String c s' => isBase36 c && allBase36 s'
  end.

(** The texts [Math.random().toString(36)] can be: a number of [0, 1)
    prints as "0" or as "0." followed by at least one digit. *)
Definition radix36Text (r : string) : bool :=
  match r with
  | String "0" EmptyString => true
  | String "0" (String "." (String c digits)) => allBase36 (String c digits)
  | _ => false
  end.

Definition digit36 (d : Z) : ascii :=
  if d <? 10 then ascii_of_nat (48 + Z.to_nat d) else ascii_of_nat (87 + Z.to_nat d).

(** The digits of the fraction [num / den] in radix 36, while it has any. *)
Fixpoint fraction36 (fuel : nat) (num den : Z) : string :=
  match fuel with
  | O => ""
  | S fuel' =>
      if num =? 0 then ""
      else String (digit36 (36 * num / den)) (fraction36 fuel' (36 * num mod den) den)
  end.

(** [(num / den).toString(36)] for a number of [0, 1) whose expansion in
    radix 36 ends within the digits the runtime prints. *)
Definition exactRadix36 (num den : Z) : string :=
  if num =? 0 then "0" else "0." +:+ fraction36 11 num den.

(** ** Reachable servers *)

(** The servers that the two operations produce, starting from empty
    stores; a restart of the process clears the array and keeps the
    backend. *)
Inductive reachable : Server → Prop :=
  | reachable_start : reachable emptyServer
  | reachable_add (env : AddEnv) (args : AddArgs) (s : Server) :
      reachable s → radix36Text (random36 env) = true →
      reachable (addMemory env args s).1
  | reachable_search (net : Net) (args : SearchArgs) (s : Server) :
      reachable s → reachable (searchMemories net args s).1
  | reachable_restart (s : Server) :
      reachable s → reachable {| redis := redis s; memories := [] |}.

(** Every stored string is the record of a memory, under the key of that
    memory's user and identifier, and identifiers are made of radix-36
    digits. *)
Definition keysMatchRecords (r : Redis) : Prop :=
  (∀ key value, strings r !! key = Some value →
     ∃ memory, value = Serialized memory
       ∧ key = memoryKey (userId memory) (id memory)
       ∧ allBase36 (id memory) = true)
  ∧ (∀ key memoryIds memoryId, sets r !! key = Some memoryIds →
       memoryId ∈ memoryIds → allBase36 memoryId = true).

Module TwoUsers.

(** Two users each keep a note about tea in the backend and another one,
    written during an outage, in the array. *)
Definition bothStores : Server :=
  let s := emptyServer in
  let s := (addMemory (Scenario.working "0.a1b2c3d4e5f" 1700000000000)
              (Scenario.note "likes tea" "u1") s).1 in
  let s := (addMemory (Scenario.working "0.c7d8e9f0g1h" 1700000000001)
              (Scenario.note "hates tea" "u2") s).1 in
  let s := (addMemory (Scenario.forcedFailure 1700000000002)
              (Scenario.note "drinks tea at five" "u1") s).1 in
  (addMemory (Scenario.forcedFailure 1700000000003)
     (Scenario.note "never drinks tea" "u2") s).1.

Definition firstNote : Memory :=
  {| id := "a1b2c3d4e5f"; content := "likes tea"; userId := "u1";
     timestamp := 1700000000000 |}.

End TwoUsers.

(** ** The HTTP front *)

Module Fastify.

(** What the hook and the routes read of a request: [request.url] and
    [request.headers.authorization]. *)
Record HttpRequest : Type := {
  url : string;
  authorization : option string;
}.

(** What the [preValidation] hook does with a request: it lets it go on
    to its route, or answers [reply.code(401).send({ error })]. *)
Inductive HookResult : Type :=
  | Continue
  | Unauthorized (error : string).

#[global] Instance HookResult_eq_dec : EqDecision HookResult.
Proof. solve_decision. Defined.

(** [value || fallback] for an environment variable: the fallback
    replaces [undefined] and the empty string. *)
Definition orElse (value : option string) (fallback : string) : string :=
  match value with
  | Some (String c rest) => String c rest
  | Some EmptyString | None => fallback
  end.

(** [s.startsWith(searchString)]. *)
Definition startsWith (s searchString : string) : bool := String.prefix searchString s.

(** [s.substring(start)]: the text from index [start] on. *)
Fixpoint substringFrom (start : nat) (s : string) : string :=
  match start, s with
  | O, _ => s
  | S start', String _ s' => substringFrom start' s'
  | S _, EmptyString => EmptyString
  end.

Definition DEFAULT_BEARER_TOKEN : string := "sk-combinedmemory-v2-secure-token-2024".

(** Line 224. *)
Definition expectedToken (MCP_BEARER_TOKEN : option string) : string :=
  orElse MCP_BEARER_TOKEN DEFAULT_BEARER_TOKEN.

(** The [preValidation] hook (lines 217-236). *)
Definition preValidation (MCP_BEARER_TOKEN : option string) (request : HttpRequest) :
    HookResult :=
  if String.eqb (url request) "/health" then Continue
  else
    let expectedToken := expectedToken MCP_BEARER_TOKEN in
    match authorization request with
    | None => Unauthorized "Missing or invalid Authorization header"
    | Some authHeader =>
        if String.eqb authHeader "" || negb (startsWith authHeader "Bearer ")
        then Unauthorized "Missing or invalid Authorization header"
        else
          let token := substringFrom 7 authHeader in
          if negb (String.eqb token expectedToken)
          then Unauthorized "Invalid bearer token"
          else Continue
    end.

(** The object the health route returns (lines 248-254). *)
Record HealthReport : Type := {
  status : string;
  timestamp : string;
  version : string;
  dragonfly : string;
  fallback : string;
}.

(** [redis.ping()]. *)
Definition redis_ping : Try string := command (λ r, r) (λ _, "PONG").

(** The handler of [GET /health] (lines 239-255). *)
Definition health (net : Net) (now : Z) (s : Server) : Server * HealthReport :=
  let '(_, redis', attempt) := redis_ping net 0%nat (redis s) in
  let dragonflyStatus :=
    match attempt with
    | Some _ => "connected"
    | None => "unavailable"
    end in
  ({| redis := redis'; memories := memories s |},
   {| status := "healthy";
      timestamp := JS.toISOString now;
      version := "2.0.0-SSE";
      dragonfly := dragonflyStatus;
      fallback := if String.eqb dragonflyStatus "unavailable" then "in-memory"
                  else "not needed" |}).

End Fastify.

(** ** Further vocabulary *)

(** Every index entry of the backend has a readable record of the user and
    identifier it stands for. *)
Definition indexHasRecords (r : Redis) : Prop :=
  ∀ key memoryIds memoryId,
    sets r !! key = Some memoryIds → memoryId ∈ memoryIds →
    ∃ user memory,
      key = searchKey user
      ∧ strings r !! memoryKey user memoryId = Some (Serialized memory)
      ∧ userId memory = user ∧ id memory = memoryId.

Module Collision.

(** The same random number is drawn for two notes of one user. *)
Definition first : AddArgs := Scenario.note "likes tea" "u1".
Definition second : AddArgs := Scenario.note "likes coffee" "u1".

Definition afterFirst : Server :=
  (addMemory (Scenario.working "0.4fzyo82mvyr" 1700000000000) first emptyServer).1.

Definition old : Memory :=
  {| id := "4fzyo82mvyr"; content := "likes tea"; userId := "u1";
     timestamp := 1700000000000 |}.

End Collision.

(** ** Further scenarios *)

(** The characters of a text are ASCII. *)
Fixpoint asciiText (s : string) : bool :=
  match s with
  | EmptyString => true
  | String c s' => (nat_of_ascii c <? 128)%nat && asciiText s'
  end.

Module Ties.

(** Two notes of one user written to the backend within one millisecond:
    "tea B" first, "tea A" second. *)
Definition first : AddEnv := Scenario.working "0.a1b2c3d4e5f" 1700000000000.
Definition second : AddEnv := Scenario.working "0.c7d8e9f0g1h" 1700000000000.

Definition afterFirst : Server := (addMemory first (Scenario.note "tea B" "u1") emptyServer).1.
Definition afterBoth : Server := (addMemory second (Scenario.note "tea A" "u1") afterFirst).1.

(** The same two notes written during an outage. *)
Definition inArray : Server :=
  Scenario.addAll (Scenario.forcedFailure 1700000000000) "u1" ["tea B"; "tea A"] emptyServer.

End Ties.

Module Days.

(** Fifteen notes, one a day, written during an outage. *)
Definition notes : list (string * Z) :=
  [ ("tea 01", 0); ("tea 02", 1); ("tea 03", 2); ("tea 04", 3); ("tea 05", 4);
    ("tea 06", 5); ("tea 07", 6); ("tea 08", 7); ("tea 09", 8); ("tea 10", 9);
    ("tea 11", 10); ("tea 12", 11); ("tea 13", 12); ("tea 14", 13); ("tea 15", 14) ].

Definition fifteenDays : Server :=
  foldl (λ s note,
           (addMemory (Scenario.forcedFailure (1700000000000 + note.2 * 86400000))
              (Scenario.note note.1 "u1") s).1)
        emptyServer notes.

End Days.

(** * Properties *)

(** ** The runtime on examples *)

Example toLowerCase_ocaml : JS.toLowerCase "Quinn loves OCaml" = "quinn loves ocaml".
Proof. reflexivity. Qed.

Example includes_ocaml :
  JS.includes (JS.toLowerCase "Quinn loves OCaml") (JS.toLowerCase "ocaml") = true.
Proof. reflexivity. Qed.

Example toISOString_epoch : JS.toISOString 0 = "1970-01-01T00:00:00.000Z".
Proof. reflexivity. Qed.

Example toISOString_2023 : JS.toISOString 1700000000000 = "2023-11-14T22:13:20.000Z".
Proof. vm_compute. reflexivity. Qed.

Example toISOString_leap : JS.toISOString 1709251199999 = "2024-02-29T23:59:59.999Z".
Proof. vm_compute. reflexivity. Qed.

Example toISOString_before_epoch : JS.toISOString (-1) = "1969-12-31T23:59:59.999Z".
Proof. vm_compute. reflexivity. Qed.

(** ** Facts about the runtime *)

Lemma append_cons (x : ascii) (a b : string) : String x a +:+ b = String x (a +:+ b).
Proof. reflexivity. Qed.

Lemma append_nil_l (b : string) : "" +:+ b = b.
Proof. reflexivity. Qed.

Lemma append_nil_r (a : string) : a +:+ "" = a.
Proof. induction a as [|x a IH]; [reflexivity | now rewrite append_cons, IH]. Qed.

Lemma append_assoc (a b c : string) : (a +:+ b) +:+ c = a +:+ (b +:+ c).
Proof.
  induction a as [|x a IH]; [reflexivity |].
  now rewrite !append_cons, IH.
Qed.

Lemma prefix_append (a b : string) : String.prefix a (a +:+ b) = true.
Proof.
  induction a as [|x a IH].
  - now destruct b.
  - rewrite append_cons. simpl.
    destruct (ascii_dec x x) as [_|n]; [exact IH | now destruct n].
Qed.

Lemma includes_unfold (s sub : string) :
  JS.includes s sub =
  String.prefix sub s || match s with EmptyString => false | String _ s' => JS.includes s' sub end.
Proof. now destruct s. Qed.

Lemma includes_here (a b : string) : JS.includes (a +:+ b) a = true.
Proof. rewrite includes_unfold, prefix_append. reflexivity. Qed.

Lemma includes_skip (p s sub : string) :
  JS.includes s sub = true → JS.includes (p +:+ s) sub = true.
Proof.
  intros H. induction p as [|x p IH]; [exact H |].
  rewrite append_cons, includes_unfold, IH. apply orb_true_r.
Qed.

Lemma includes_refl (a : string) : JS.includes a a = true.
Proof. rewrite <- (append_nil_r a) at 1. apply includes_here. Qed.

(** A text occurs in whatever is built around it. *)
Lemma includes_infix (p a q : string) : JS.includes (p +:+ a +:+ q) a = true.
Proof. apply includes_skip, includes_here. Qed.

Lemma prefix_weaken (sub a q : string) :
  String.prefix sub a = true → String.prefix sub (a +:+ q) = true.
Proof.
  revert a. induction sub as [|z sub IH]; intros a H; [now destruct (a +:+ q) |].
  destruct a as [|w a]; [discriminate |].
  rewrite append_cons. simpl in *.
  destruct (ascii_dec z w); [now apply IH | discriminate].
Qed.

Lemma includes_weaken (a q sub : string) :
  JS.includes a sub = true → JS.includes (a +:+ q) sub = true.
Proof.
  induction a as [|x a IH]; intros H.
  - rewrite includes_unfold in H. rewrite orb_false_r in H.
    rewrite includes_unfold. now rewrite (prefix_weaken _ _ q H).
  - rewrite includes_unfold in H. apply orb_true_iff in H as [H|H].
    + rewrite includes_unfold. now rewrite (prefix_weaken _ _ q H).
    + rewrite append_cons, includes_unfold, (IH H). apply orb_true_r.
Qed.

(** Occurrence is transitive through a surrounding text. *)
Lemma includes_trans_infix (p a q sub : string) :
  JS.includes a sub = true → JS.includes (p +:+ a +:+ q) sub = true.
Proof. intros H. now apply includes_skip, includes_weaken. Qed.

Lemma prefix_decompose (a s : string) :
  String.prefix a s = true → ∃ q, s = a +:+ q.
Proof.
  revert s. induction a as [|x a IH]; intros s H.
  - exists s. reflexivity.
  - destruct s as [|y s]; [discriminate |]. simpl in H.
    destruct (ascii_dec x y) as [->|]; [| discriminate].
    destruct (IH _ H) as [q ->]. exists q. reflexivity.
Qed.

Lemma includes_decompose (s sub : string) :
  JS.includes s sub = true → ∃ p q, s = p +:+ sub +:+ q.
Proof.
  induction s as [|x s IH]; intros H; rewrite includes_unfold in H;
    apply orb_true_iff in H as [H|H]; try discriminate.
  - destruct (prefix_decompose _ _ H) as [q ->]. exists "", q. reflexivity.
  - destruct (prefix_decompose _ _ H) as [q ->]. exists "", q. reflexivity.
  - destruct (IH H) as (p & q & ->). exists (String x p), q. reflexivity.
Qed.

Lemma includes_trans (s mid sub : string) :
  JS.includes s mid = true → JS.includes mid sub = true → JS.includes s sub = true.
Proof.
  intros H1 H2. destruct (includes_decompose _ _ H1) as (p & q & ->).
  now apply includes_trans_infix.
Qed.

Lemma join_infix (sep : string) (parts : list string) (p : string) :
  p ∈ parts → ∃ a b, JS.join sep parts = a +:+ p +:+ b.
Proof.
  induction parts as [|x parts IH]; intros Hin; [by apply elem_of_nil in Hin |].
  apply elem_of_cons in Hin as [->|Hin].
  - destruct parts as [|y parts].
    + exists "", "". now rewrite append_nil_l, append_nil_r.
    + exists "", (sep +:+ JS.join sep (y :: parts)). reflexivity.
  - destruct (IH Hin) as (a & b & E). destruct parts as [|y parts].
    + by apply elem_of_nil in Hin.
    + exists (x +:+ sep +:+ a), b.
      change (JS.join sep (x :: y :: parts)) with (x +:+ sep +:+ JS.join sep (y :: parts)).
      rewrite E. now rewrite !append_assoc.
Qed.

Lemma digit_range (n : Z) : ∃ k, (k < 10)%nat ∧ JS.digit n = ascii_of_nat (48 + k).
Proof.
  exists (Z.to_nat (n mod 10)). split; [| reflexivity].
  pose proof (Z.mod_pos_bound n 10 eq_refl). lia.
Qed.

Lemma digit_not_T (n : Z) : Ascii.eqb (JS.digit n) "T" = false.
Proof.
  destruct (digit_range n) as (k & Hk & ->).
  do 10 (destruct k as [|k]; [reflexivity |]). lia.
Qed.

Lemma splitHead_cons (c : ascii) (s : string) :
  Ascii.eqb c "T" = false → JS.splitHead "T" (String c s) = String c (JS.splitHead "T" s).
Proof. intros H. cbn [JS.splitHead]. now rewrite H. Qed.

Lemma splitHead_sep (s : string) : JS.splitHead "T" (String "T" s) = "".
Proof. reflexivity. Qed.

(** [toISOString().split('T')[0]] is the date part. *)
Lemma splitHead_toISOString (t : Z) :
  JS.splitHead "T" (JS.toISOString t) = JS.isoDate t.
Proof.
  unfold JS.toISOString, JS.isoDate.
  destruct (JS.civilFromDays (t / 86400000)) as [[y m] d].
  unfold JS.isoYear, JS.pad6, JS.pad4, JS.pad3, JS.pad2.
  destruct ((0 <=? y) && (y <=? 9999))%bool; [| destruct (y <? 0)];
    repeat (rewrite append_cons || rewrite append_nil_l);
    repeat (rewrite splitHead_cons by (apply digit_not_T || reflexivity));
    now rewrite splitHead_sep.
Qed.

(** ** Facts about the backend commands *)

Lemma command_read {A} (reply : Redis → A) (net : Net) (n : nat) (r : Redis) :
  (command (λ r, r) reply net n r).1.2 = r.
Proof. unfold command. now destruct (net n). Qed.

Lemma redis_get_inv (key : string) (net : Net) (n : nat) (r : Redis) :
  redis_get key net n r = (S n, r, Some (strings r !! key)) ∧ net n = Resolves
  ∨ redis_get key net n r = (S n, r, None) ∧ net n ≠ Resolves.
Proof. unfold redis_get, command. destruct (net n); auto. Qed.

Lemma redis_smembers_inv (key : string) (net : Net) (n : nat) (r : Redis) :
  redis_smembers key net n r = (S n, r, Some (elements (members key r))) ∧ net n = Resolves
  ∨ redis_smembers key net n r = (S n, r, None) ∧ net n ≠ Resolves.
Proof. unfold redis_smembers, command. destruct (net n); auto. Qed.

Lemma bind_unfold {A B} (m : Try A) (f : A → Try B) (net : Net) (n : nat) (r : Redis) :
  (m ≫= f) net n r =
  match m net n r with
  | (n', r', Some a) => f a net n' r'
  | (n', r', None) => (n', r', None)
  end.
Proof. reflexivity. Qed.

Lemma scan_unfold (userId queryLower memoryId : string) (rest : list string)
    (acc : list Memory) (net : Net) (n : nat) (r : Redis) :
  scan userId queryLower (memoryId :: rest) acc net n r =
  match net n with
  | Resolves =>
      match strings r !! memoryKey userId memoryId with
      | None | Some Blank => scan userId queryLower rest acc net (S n) r
      | Some Malformed => (S n, r, None)
      | Some (Serialized memory) =>
          if matchesQuery queryLower memory
          then scan userId queryLower rest (acc ++ [memory]) net (S n) r
          else scan userId queryLower rest acc net (S n) r
      end
  | _ => (S n, r, None)
  end.
Proof.
  cbn [scan]. rewrite bind_unfold. unfold redis_get, command.
  destruct (net n); try reflexivity.
  destruct (strings r !! memoryKey userId memoryId) as [[| |memory]|]; try reflexivity.
  now destruct (matchesQuery queryLower memory).
Qed.

Lemma primaryMatches_cons (r : Redis) (userId queryLower memoryId : string) (rest : list string) :
  primaryMatches r userId queryLower (memoryId :: rest) =
  match lookupRecord r userId memoryId with
  | Some memory =>
      if matchesQuery queryLower memory
      then memory :: primaryMatches r userId queryLower rest
      else primaryMatches r userId queryLower rest
  | None => primaryMatches r userId queryLower rest
  end.
Proof.
  unfold primaryMatches. cbn [omap list_omap].
  destruct (lookupRecord r userId memoryId) as [memory|]; [| reflexivity].
  cbn [List.filter]. reflexivity.
Qed.

(** A scan never changes the backend. *)
Lemma scan_backend (userId queryLower : string) (memoryIds : list string)
    (acc : list Memory) (net : Net) (n : nat) (r : Redis) :
  (scan userId queryLower memoryIds acc net n r).1.2 = r.
Proof.
  revert acc n. induction memoryIds as [|memoryId rest IH]; intros acc n; [reflexivity |].
  rewrite scan_unfold.
  destruct (net n); try reflexivity.
  destruct (strings r !! memoryKey userId memoryId) as [[| |memory]|]; try apply IH; try reflexivity.
  destruct (matchesQuery queryLower memory); apply IH.
Qed.

(** A scan that completes has collected exactly the matching readable
    records, after what was collected before. *)
Lemma scan_Some (userId queryLower : string) (memoryIds : list string)
    (acc found : list Memory) (net : Net) (n : nat) (r : Redis) :
  (scan userId queryLower memoryIds acc net n r).2 = Some found →
  found = acc ++ primaryMatches r userId queryLower memoryIds.
Proof.
  revert acc n. induction memoryIds as [|memoryId rest IH]; intros acc n.
  - cbn. intros [= <-]. now rewrite app_nil_r.
  - rewrite scan_unfold, primaryMatches_cons. unfold lookupRecord.
    destruct (net n); try discriminate.
    destruct (strings r !! memoryKey userId memoryId) as [[| |memory]|];
      try apply IH; try discriminate.
    destruct (matchesQuery queryLower memory); intros H; apply IH in H.
    + now rewrite <- app_assoc in H.
    + exact H.
Qed.

(** A scan over an index with a malformed record throws, whatever the
    network does. *)
Lemma scan_malformed (userId queryLower memoryId : string) (memoryIds : list string)
    (acc : list Memory) (net : Net) (n : nat) (r : Redis) :
  memoryId ∈ memoryIds →
  strings r !! memoryKey userId memoryId = Some Malformed →
  (scan userId queryLower memoryIds acc net n r).2 = None.
Proof.
  intros Hin Hbad. revert acc n.
  induction memoryIds as [|x rest IH]; intros acc n; [by apply elem_of_nil in Hin |].
  rewrite scan_unfold. destruct (net n); try reflexivity.
  destruct (decide (x = memoryId)) as [->|Hne].
  - now rewrite Hbad.
  - assert (memoryId ∈ rest) as Hrest by (apply elem_of_cons in Hin as [?|?]; congruence).
    destruct (strings r !! memoryKey userId x) as [[| |memory]|]; try reflexivity; auto.
    destruct (matchesQuery queryLower memory); auto.
Qed.

(** With every command resolving and no malformed record in the index, a
    scan completes. *)
Lemma scan_healthy (userId queryLower : string) (memoryIds : list string)
    (acc : list Memory) (net : Net) (n : nat) (r : Redis) :
  (∀ k, net k = Resolves) →
  (∀ memoryId, memoryId ∈ memoryIds →
     strings r !! memoryKey userId memoryId ≠ Some Malformed) →
  (scan userId queryLower memoryIds acc net n r).2 =
  Some (acc ++ primaryMatches r userId queryLower memoryIds).
Proof.
  intros Hnet. revert acc n.
  induction memoryIds as [|x rest IH]; intros acc n Hok.
  - cbn. now rewrite app_nil_r.
  - assert (∀ memoryId, memoryId ∈ rest →
              strings r !! memoryKey userId memoryId ≠ Some Malformed) as Hrest
      by (intros ? ?; apply Hok; now apply elem_of_cons; right).
    specialize (Hok x (list_elem_of_here _ _)).
    rewrite scan_unfold, primaryMatches_cons, Hnet. unfold lookupRecord.
    destruct (strings r !! memoryKey userId x) as [[| |memory]|]; try (now apply IH).
    + congruence.
    + destruct (matchesQuery queryLower memory); rewrite IH by exact Hrest.
      * now rewrite <- app_assoc.
      * reflexivity.
Qed.

Lemma searchInDragonfly_backend (userId queryLower : string) (net : Net) (n : nat) (r : Redis) :
  (searchInDragonfly userId queryLower net n r).1.2 = r.
Proof.
  unfold searchInDragonfly. rewrite bind_unfold.
  destruct (redis_smembers_inv (searchKey userId) net n r) as [[-> _]|[-> _]]; [| reflexivity].
  apply scan_backend.
Qed.

Lemma searchInDragonfly_Some (userId queryLower : string) (found : list Memory)
    (net : Net) (n : nat) (r : Redis) :
  (searchInDragonfly userId queryLower net n r).2 = Some found →
  found = primaryMatches r userId queryLower (elements (members (searchKey userId) r)).
Proof.
  unfold searchInDragonfly. rewrite bind_unfold.
  destruct (redis_smembers_inv (searchKey userId) net n r) as [[-> _]|[-> _]]; [| discriminate].
  intros H. now apply scan_Some in H.
Qed.

(** With every command resolving and no malformed record in the user's
    index, the search is served by the Primary Store: missing and empty
    records are passed over. *)
Lemma dangling_entries_skipped (net : Net) (args : SearchArgs) (s : Server) :
  (∀ k, net k = Resolves) →
  (∀ memoryId,
     memoryId ∈ members (searchKey (schema_userId (search_userId args))) (redis s) →
     strings (redis s) !! memoryKey (schema_userId (search_userId args)) memoryId
     ≠ Some Malformed) →
  searchedIn net args s = Primary.
Proof.
  intros Hnet Hok. unfold searchedIn, searchInDragonfly. rewrite bind_unfold.
  destruct (redis_smembers_inv (searchKey (schema_userId (search_userId args))) net 0%nat
              (redis s)) as [[-> _]|[_ Hbad]]; [| now rewrite Hnet in Hbad].
  pose proof (scan_healthy (schema_userId (search_userId args))
                (JS.toLowerCase (search_query args))
                (elements (members (searchKey (schema_userId (search_userId args))) (redis s)))
                [] net 1%nat (redis s) Hnet) as Hscan.
  destruct (scan _ _ _ _ _ _ _) as [[n redis'] attempt]. cbn in Hscan.
  rewrite Hscan; [reflexivity |].
  intros memoryId Hin. apply Hok. now apply elem_of_elements.
Qed.

Lemma insertByTimestamp_unfold (a b : Memory) (rest : list Memory) :
  insertByTimestamp a (b :: rest) =
  if decide (timestamp a < timestamp b) then b :: insertByTimestamp a rest else a :: b :: rest.
Proof.
  cbn [insertByTimestamp].
  destruct (Z.gtb_spec (timestamp b - timestamp a) 0); case_decide; try reflexivity; lia.
Qed.

Lemma insertByTimestamp_perm (a : Memory) (l : list Memory) :
  insertByTimestamp a l ≡ₚ a :: l.
Proof.
  induction l as [|b rest IH]; [reflexivity |].
  rewrite insertByTimestamp_unfold. case_decide; [| reflexivity].
  rewrite IH. apply Permutation_swap.
Qed.

Lemma sortByTimestamp_perm (l : list Memory) : sortByTimestamp l ≡ₚ l.
Proof.
  induction l as [|a l IH]; [reflexivity |].
  cbn [sortByTimestamp foldr]. rewrite insertByTimestamp_perm.
  now apply Permutation_skip.
Qed.

Lemma insertByTimestamp_sorted (a : Memory) (l : list Memory) :
  StronglySorted newerFirst l → StronglySorted newerFirst (insertByTimestamp a l).
Proof.
  induction 1 as [|b rest Hsorted IH Hall].
  - repeat constructor.
  - rewrite insertByTimestamp_unfold. case_decide as Hlt.
    + constructor; [exact IH |].
      rewrite insertByTimestamp_perm. constructor; [unfold newerFirst; lia | exact Hall].
    + constructor; [now constructor |].
      constructor; [unfold newerFirst; lia |].
      eapply Forall_impl; [exact Hall |]. unfold newerFirst. intros; lia.
Qed.

Lemma sortByTimestamp_sorted (l : list Memory) : StronglySorted newerFirst (sortByTimestamp l).
Proof.
  induction l as [|a l IH]; [constructor |].
  now apply insertByTimestamp_sorted.
Qed.

Lemma filter_sameTime_cons (t : Z) (a : Memory) (l : list Memory) :
  filter (sameTime t) (a :: l) =
  if decide (timestamp a = t) then a :: filter (sameTime t) l else filter (sameTime t) l.
Proof.
  rewrite filter_cons.
  destruct (decide (sameTime t a)), (decide (timestamp a = t));
    unfold sameTime in *; congruence.
Qed.

Lemma insertByTimestamp_stable (t : Z) (a : Memory) (l : list Memory) :
  filter (sameTime t) (insertByTimestamp a l) = filter (sameTime t) (a :: l).
Proof.
  induction l as [|b rest IH]; [reflexivity |].
  rewrite insertByTimestamp_unfold. case_decide as Hlt; [| reflexivity].
  rewrite filter_sameTime_cons, IH, !filter_sameTime_cons.
  repeat case_decide; try reflexivity; lia.
Qed.

(** Memories of equal timestamp keep the order they were collected in. *)
Lemma sortByTimestamp_stable (t : Z) (l : list Memory) :
  filter (sameTime t) (sortByTimestamp l) = filter (sameTime t) l.
Proof.
  induction l as [|a l IH]; [reflexivity |].
  cbn [sortByTimestamp foldr]. rewrite insertByTimestamp_stable.
  rewrite !filter_sameTime_cons. fold (sortByTimestamp l). now rewrite IH.
Qed.

Lemma sortByTimestamp_length (l : list Memory) : length (sortByTimestamp l) = length l.
Proof. apply Permutation_length, sortByTimestamp_perm. Qed.

(** A stable sort has one result: a list with the same elements, most
    recent first, in which equal timestamps keep their order. *)
Lemma stable_sorted_unique (l1 l2 : list Memory) :
  StronglySorted newerFirst l1 → StronglySorted newerFirst l2 →
  (∀ t, filter (sameTime t) l1 = filter (sameTime t) l2) →
  l1 = l2.
Proof.
  intros H1. revert l2. induction H1 as [|a l1 Hs1 IH Ha]; intros l2 H2 Hst.
  - destruct l2 as [|b l2]; [reflexivity |].
    specialize (Hst (timestamp b)). rewrite filter_sameTime_cons in Hst.
    rewrite decide_True in Hst by reflexivity. discriminate.
  - destruct H2 as [|b l2 Hs2 Hb].
    + specialize (Hst (timestamp a)). rewrite filter_sameTime_cons in Hst.
      rewrite decide_True in Hst by reflexivity. discriminate.
    + assert (timestamp a = timestamp b) as Hab.
      { pose proof (Hst (timestamp a)) as Ea. pose proof (Hst (timestamp b)) as Eb.
        rewrite !filter_sameTime_cons in Ea, Eb.
        destruct (decide (timestamp a = timestamp b)) as [|Hne]; [assumption | exfalso].
        rewrite (decide_True (P := timestamp a = timestamp a)) in Ea by reflexivity.
        rewrite (decide_True (P := timestamp b = timestamp b)) in Eb by reflexivity.
        rewrite decide_False in Ea by congruence.
        assert (a ∈ filter (sameTime (timestamp a)) l2) as Hin2
          by (rewrite <- Ea; apply list_elem_of_here).
        assert (b ∈ filter (sameTime (timestamp b)) l1) as Hin1
          by (rewrite Eb; apply list_elem_of_here).
        apply list_elem_of_filter in Hin1 as [_ Hin1], Hin2 as [_ Hin2].
        rewrite Forall_forall in Ha, Hb.
        specialize (Ha _ Hin1). specialize (Hb _ Hin2). unfold newerFirst in *. lia. }
      assert (a = b) as ->.
      { specialize (Hst (timestamp a)). rewrite !filter_sameTime_cons in Hst.
        rewrite (decide_True (P := timestamp a = timestamp a)) in Hst by reflexivity.
        rewrite decide_True in Hst by congruence. congruence. }
      f_equal. apply IH; [exact Hs2 |].
      intros t. specialize (Hst t). rewrite !filter_sameTime_cons in Hst.
      case_decide; congruence.
Qed.

Lemma length_filter_Forall {A} (P : A → Prop) `{∀ x, Decision (P x)} (l : list A) :
  Forall P l → length (filter P l) = length l.
Proof.
  induction 1 as [|x l Hx _ IH]; [reflexivity |].
  rewrite filter_cons, decide_True by exact Hx. cbn. now rewrite IH.
Qed.

(** A match is among the first ten after sorting when at most ten matches
    (itself included) are at least as recent. *)
Lemma among_first_ten (m : Memory) (l : list Memory) :
  m ∈ l →
  (length (filter (notOlderThan m) l) ≤ 10)%nat →
  m ∈ take 10 (sortByTimestamp l).
Proof.
  intros Hin Hcount.
  assert (m ∈ sortByTimestamp l) as Hsorted by now rewrite sortByTimestamp_perm.
  destruct (list_elem_of_split _ _ Hsorted) as (l1 & l2 & E).
  pose proof (sortByTimestamp_sorted l) as Hs. rewrite E in Hs.
  assert (Forall (notOlderThan m) l1) as Hbefore.
  { apply Forall_forall. intros x Hx.
    apply (StronglySorted_app_1_elem_of _ _ _ x m Hs Hx), list_elem_of_here. }
  rewrite <- (sortByTimestamp_perm l), E, filter_app, length_app in Hcount.
  rewrite (length_filter_Forall _ _ Hbefore), filter_cons in Hcount.
  rewrite decide_True in Hcount by (unfold notOlderThan; lia). cbn in Hcount.
  apply elem_of_take. exists (length l1). split; [| lia].
  rewrite E. apply list_lookup_middle. reflexivity.
Qed.

Lemma renderMemory_shape (index : nat) (memory : Memory) :
  renderMemory index memory =
  (JS.ofNat (index + 1) +:+ ". ") +:+
  ("[" +:+ JS.isoDate (timestamp memory) +:+ "] " +:+ content memory).
Proof.
  unfold renderMemory.
  rewrite splitHead_toISOString, !append_assoc. reflexivity.
Qed.

(** A memory among the first ten appears in the digest with its date. *)
Lemma foundText_shows (query : string) (m : Memory) (matchingMemories : list Memory) :
  m ∈ take 10 matchingMemories →
  JS.includes (foundText query matchingMemories)
    ("[" +:+ JS.isoDate (timestamp m) +:+ "] " +:+ content m) = true.
Proof.
  intros Hin. apply list_elem_of_lookup in Hin as [i Hi].
  pose proof (elem_of_lookup_imap_2 renderMemory _ _ _ Hi) as Hline.
  destruct (join_infix (newline +:+ newline) _ _ Hline) as (a & b & E).
  unfold foundText, resultsText. rewrite E, renderMemory_shape.
  generalize ("[" +:+ JS.isoDate (timestamp m) +:+ "] " +:+ content m). intros shown.
  rewrite !append_assoc.
  repeat first [apply includes_here | apply includes_skip].
Qed.

Lemma storeInDragonfly_cases (memory : Memory) (net : Net) (n : nat) (r : Redis) :
  storeInDragonfly memory net n r =
  match net n with
  | Resolves =>
      match net (S n) with
      | Resolves => (S (S n), withIndexEntry memory (withRecord memory r), Some ())
      | Rejects => (S (S n), withRecord memory r, None)
      | RejectsLate => (S (S n), withIndexEntry memory (withRecord memory r), None)
      end
  | Rejects => (S n, r, None)
  | RejectsLate => (S n, withRecord memory r, None)
  end.
Proof.
  unfold storeInDragonfly. rewrite bind_unfold. unfold redis_set, redis_sadd, command.
  destruct (net n); reflexivity.
Qed.

Lemma addMemory_state (env : AddEnv) (args : AddArgs) (s : Server) :
  (addMemory env args s).1 =
  let memory := newMemory env args in
  match storeInDragonfly memory (add_net env) 0%nat (redis s) with
  | (_, redis', Some _) => {| redis := redis'; memories := memories s |}
  | (_, redis', None) => {| redis := redis'; memories := memories s ++ [memory] |}
  end.
Proof.
  unfold addMemory. cbn zeta.
  destruct (storeInDragonfly _ _ _ _) as [[n redis'] [[]|]]; reflexivity.
Qed.

Lemma writtenTo_Primary (env : AddEnv) (args : AddArgs) (s : Server) :
  writtenTo env args s = Primary →
  (addMemory env args s).1 =
  {| redis := withIndexEntry (newMemory env args) (withRecord (newMemory env args) (redis s));
     memories := memories s |}.
Proof.
  rewrite addMemory_state. unfold writtenTo. cbn zeta. rewrite storeInDragonfly_cases.
  destruct (add_net env 0%nat); try discriminate.
  destruct (add_net env 1%nat); try discriminate. reflexivity.
Qed.

Lemma writtenTo_Fallback (env : AddEnv) (args : AddArgs) (s : Server) :
  writtenTo env args s = Fallback →
  memories (addMemory env args s).1 = memories s ++ [newMemory env args].
Proof.
  rewrite addMemory_state. unfold writtenTo. cbn zeta.
  destruct (storeInDragonfly _ _ _ _) as [[n redis'] [[]|]]; [discriminate | reflexivity].
Qed.

Lemma lookupRecord_stored (memory : Memory) (r : Redis) :
  lookupRecord (withIndexEntry memory (withRecord memory r)) (userId memory) (id memory)
  = Some memory.
Proof. unfold lookupRecord. cbn. now rewrite lookup_insert_eq. Qed.

Lemma members_stored (memory : Memory) (r : Redis) :
  id memory ∈ members (searchKey (userId memory)) (withIndexEntry memory r).
Proof. unfold members at 1. cbn. rewrite lookup_insert_eq. cbn. set_solver. Qed.

Lemma elem_of_primaryMatches (r : Redis) (userId queryLower : string)
    (memoryIds : list string) (memory : Memory) :
  memory ∈ primaryMatches r userId queryLower memoryIds ↔
  (∃ memoryId, memoryId ∈ memoryIds ∧ lookupRecord r userId memoryId = Some memory)
  ∧ matchesQuery queryLower memory = true.
Proof.
  unfold primaryMatches. rewrite list_elem_of_In, filter_In, <- list_elem_of_In.
  now rewrite list_elem_of_omap.
Qed.

Lemma searchedIn_Primary (net : Net) (args : SearchArgs) (s : Server) :
  searchedIn net args s = Primary →
  (collectMatches net args s).2 =
  primaryMatches (redis s) (schema_userId (search_userId args))
    (JS.toLowerCase (search_query args))
    (elements (members (searchKey (schema_userId (search_userId args))) (redis s))).
Proof.
  unfold searchedIn, collectMatches. cbn zeta.
  destruct (searchInDragonfly _ _ _ _ _) as [[n redis'] [found|]] eqn:E; [| discriminate].
  intros _. cbn. apply (searchInDragonfly_Some _ _ _ net 0%nat). now rewrite E.
Qed.

Lemma searchedIn_Fallback (net : Net) (args : SearchArgs) (s : Server) :
  searchedIn net args s = Fallback →
  (collectMatches net args s).2 =
  searchInMemory (schema_userId (search_userId args)) (JS.toLowerCase (search_query args))
    (memories s).
Proof.
  unfold searchedIn, collectMatches. cbn zeta.
  destruct (searchInDragonfly _ _ _ _ _) as [[n redis'] [found|]]; [discriminate | reflexivity].
Qed.

(** A memory just added is among the matches collected by a search for
    its user served by the store that took the write. *)
Lemma added_is_collected (env : AddEnv) (args : AddArgs) (s : Server) (net : Net)
    (search : SearchArgs) :
  let memory := newMemory env args in
  schema_userId (search_userId search) = userId memory →
  matchesQuery (JS.toLowerCase (search_query search)) memory = true →
  writtenTo env args s = searchedIn net search (addMemory env args s).1 →
  memory ∈ (collectMatches net search (addMemory env args s).1).2.
Proof.
  intros memory Huser Hmatch Hsame.
  destruct (writtenTo env args s) eqn:Hw; symmetry in Hsame.
  - rewrite (searchedIn_Primary _ _ _ Hsame), (writtenTo_Primary _ _ _ Hw), Huser.
    cbn [redis].
    apply elem_of_primaryMatches. split; [| exact Hmatch].
    exists (id memory). split.
    + apply elem_of_elements, members_stored.
    + apply lookupRecord_stored.
  - rewrite (searchedIn_Fallback _ _ _ Hsame), (writtenTo_Fallback _ _ _ Hw), Huser.
    unfold searchInMemory. apply list_elem_of_filter. split.
    + split; [reflexivity | exact Hmatch].
    + apply elem_of_app. right. apply list_elem_of_here.
Qed.

(** The digest of a search shows every collected match that at most ten
    collected matches are at least as recent as. *)
Lemma collected_is_shown (net : Net) (search : SearchArgs) (s : Server) (memory : Memory) :
  memory ∈ (collectMatches net search s).2 →
  (length (filter (notOlderThan memory) (collectMatches net search s).2) ≤ 10)%nat →
  JS.includes (digest (searchMemories net search s))
    ("[" +:+ JS.isoDate (timestamp memory) +:+ "] " +:+ content memory) = true
  ∧ JS.includes (digest (searchMemories net search s)) (content memory) = true.
Proof.
  intros Hin Hcount.
  pose proof (among_first_ten _ _ Hin Hcount) as Hshown.
  unfold searchMemories, digest.
  destruct (collectMatches net search s) as [redis' found]. cbn [fst snd] in *.
  unfold formatResults.
  destruct (sortByTimestamp found) as [|first rest] eqn:E;
    [rewrite take_nil in Hshown; by apply elem_of_nil in Hshown |].
  cbn [length Nat.eqb text].
  pose proof (foundText_shows (search_query search) memory _ Hshown) as Hline.
  split; [exact Hline |].
  eapply includes_trans; [exact Hline |].
  do 3 apply includes_skip. apply includes_refl.
Qed.

(** ** C1: a memory just added is found by a matching search *)

(** C1, as stated, fails: after ten matching notes of the same millisecond
    the eleventh is written and searched for under forced failure of the
    backend, both calls being served by the Fallback Store, and the digest
    of the search does not contain it: the digest renders ten matches and
    the stable sort leaves the newest of equal timestamps last. *)
Lemma C1_counterexample :
  let env := Scenario.forcedFailure 1700000000000 in
  let args := Scenario.note "likes tea" "u1" in
  let search := Scenario.ask "tea" "u1" in
  let added := (addMemory env args Scenario.tenTeas).1 in
  JS.includes (JS.toLowerCase "likes tea") (JS.toLowerCase "tea") = true
  ∧ writtenTo env args Scenario.tenTeas = Fallback
  ∧ searchedIn unreachable search added = Fallback
  ∧ JS.includes (digest (searchMemories unreachable search added)) "likes tea" = false.
Proof. vm_compute. repeat split. Qed.

(** C1, amended: for every content and userId, when [addMemory] and the
    [searchMemories] that follows it for the same userId are served by the
    same store, the query is a case-insensitive substring of the content,
    and at most ten of the matches collected (the new memory included) are
    at least as recent as the new memory, the digest contains the new
    memory's dated line, hence its content. *)
Theorem C1_added_memory_is_found (env : AddEnv) (args : AddArgs) (s : Server)
    (net : Net) (query : string) :
  let memory := newMemory env args in
  let added := (addMemory env args s).1 in
  let search := {| search_query := query; search_userId := Some (userId memory) |} in
  JS.includes (JS.toLowerCase (add_content args)) (JS.toLowerCase query) = true →
  writtenTo env args s = searchedIn net search added →
  (length (filter (notOlderThan memory) (collectMatches net search added).2) ≤ 10)%nat →
  JS.includes (digest (searchMemories net search added))
    ("[" +:+ JS.isoDate (now env) +:+ "] " +:+ add_content args) = true
  ∧ JS.includes (digest (searchMemories net search added)) (add_content args) = true.
Proof.
  intros memory added search Hsub Hsame Hcount.
  apply (collected_is_shown net search added memory); [| exact Hcount].
  now apply added_is_collected.
Qed.

(** The note about tea of the outage is found again. *)
Lemma C1_witness :
  JS.includes
    (digest (searchMemories unreachable (Scenario.ask "tea" "u1")
       (addMemory (Scenario.forcedFailure 1700000000000)
          (Scenario.note "likes tea" "u1") emptyServer).1))
    "likes tea" = true.
Proof.
  apply (C1_added_memory_is_found (Scenario.forcedFailure 1700000000000)
           (Scenario.note "likes tea" "u1") emptyServer unreachable "tea").
  - vm_compute. reflexivity.
  - vm_compute. reflexivity.
  - vm_compute. lia.
Defined.

(** ** C3: the stores an [addMemory] call writes *)

(** C3, as stated, fails: when the record is written and the index update
    is refused, one call changes the backend and appends to the array. *)
Lemma C3_counterexample :
  let env := {| random36 := "0.4fzyo82mvyr"; now := 1700000000000;
                add_net := Scenario.indexRefused |} in
  let added := (addMemory env (Scenario.note "likes tea" "u1") emptyServer).1 in
  redis added ≠ redis emptyServer ∧ memories added ≠ memories emptyServer.
Proof.
  split.
  - intros H. apply (f_equal (λ r, strings r !! "memory:u1:4fzyo82mvyr")) in H.
    vm_compute in H. discriminate.
  - vm_compute. discriminate.
Qed.

(** C3, amended: an [addMemory] call leaves the array untouched only when
    both commands resolve, and then the backend holds the record and the
    index entry; otherwise the memory is appended to the array and the
    backend keeps what it applied before the failure: nothing when the
    write is refused, the record when the index update is refused or the
    write times out, the record and the index entry when the index update
    times out. *)
Theorem C3_stores_after_add (env : AddEnv) (args : AddArgs) (s : Server) :
  let memory := newMemory env args in
  (addMemory env args s).1 =
  match add_net env 0%nat with
  | Resolves =>
      match add_net env 1%nat with
      | Resolves =>
          {| redis := withIndexEntry memory (withRecord memory (redis s));
             memories := memories s |}
      | Rejects =>
          {| redis := withRecord memory (redis s);
             memories := memories s ++ [memory] |}
      | RejectsLate =>
          {| redis := withIndexEntry memory (withRecord memory (redis s));
             memories := memories s ++ [memory] |}
      end
  | Rejects => {| redis := redis s; memories := memories s ++ [memory] |}
  | RejectsLate =>
      {| redis := withRecord memory (redis s); memories := memories s ++ [memory] |}
  end.
Proof.
  intros memory. rewrite addMemory_state. cbn zeta. fold memory.
  rewrite storeInDragonfly_cases.
  destruct (add_net env 0%nat); try reflexivity.
  destruct (add_net env 1%nat); reflexivity.
Qed.

(** ** C4: the default userId *)

(** C4, as stated, fails for the empty string: [z.string().default] keeps
    it, the memory is stored under the empty userId on either store, and a
    search under the default userId does not find it. *)
Lemma C4_counterexample :
  let args := {| add_content := "likes tea"; add_userId := Some "" |} in
  let search := {| search_query := "tea"; search_userId := None |} in
  let outage := Scenario.forcedFailure 1700000000000 in
  let working := Scenario.working "0.4fzyo82mvyr" 1700000000000 in
  userId (newMemory outage args) = ""
  ∧ digest (searchMemories unreachable search (addMemory outage args emptyServer).1)
    = "No memories found for query: " +:+ quote +:+ "tea" +:+ quote
  ∧ digest (searchMemories healthy search (addMemory working args emptyServer).1)
    = "No memories found for query: " +:+ quote +:+ "tea" +:+ quote.
Proof. vm_compute. repeat split. Qed.

(** C4, amended: for every [addMemory] call in which userId is absent the
    memory is created under the default userId "quinn_may" and held under
    it by the store that took the write; a search under the default userId
    served by that store finds it when the query is a case-insensitive
    substring of the content and at most ten collected matches are at
    least as recent.  An empty userId is kept as it is. *)
Theorem C4_absent_userId_defaults (env : AddEnv) (content : string) (s : Server)
    (net : Net) (query : string) :
  let args := {| add_content := content; add_userId := None |} in
  let memory := newMemory env args in
  let added := (addMemory env args s).1 in
  let search := {| search_query := query; search_userId := None |} in
  JS.includes (JS.toLowerCase content) (JS.toLowerCase query) = true →
  writtenTo env args s = searchedIn net search added →
  (length (filter (notOlderThan memory) (collectMatches net search added).2) ≤ 10)%nat →
  userId memory = "quinn_may"
  ∧ match writtenTo env args s with
    | Primary =>
        strings (redis added) !! memoryKey "quinn_may" (id memory) = Some (Serialized memory)
        ∧ id memory ∈ members (searchKey "quinn_may") (redis added)
    | Fallback => memory ∈ memories added
    end
  ∧ JS.includes (digest (searchMemories net search added)) content = true
  ∧ userId (newMemory env {| add_content := content; add_userId := Some "" |}) = "".
Proof.
  intros args memory added search Hsub Hsame Hcount.
  split; [reflexivity |]. split; [| split; [| reflexivity]].
  - destruct (writtenTo env args s) eqn:Hw.
    + unfold added. rewrite (writtenTo_Primary _ _ _ Hw). split.
      * pose proof (lookupRecord_stored memory (redis s)) as H.
        unfold lookupRecord in H. cbn in H |- *. now rewrite lookup_insert_eq.
      * apply (members_stored memory).
    + unfold added. rewrite (writtenTo_Fallback _ _ _ Hw).
      apply elem_of_app. right. apply list_elem_of_here.
  - apply (collected_is_shown net search added memory); [| exact Hcount].
    now apply added_is_collected.
Qed.

(** A note written without a userId during an outage is found under the
    default userId. *)
Lemma C4_witness :
  let args := {| add_content := "likes tea"; add_userId := None |} in
  let added := (addMemory (Scenario.forcedFailure 1700000000000) args emptyServer).1 in
  userId (newMemory (Scenario.forcedFailure 1700000000000) args) = "quinn_may"
  ∧ JS.includes
      (digest (searchMemories unreachable
                 {| search_query := "TEA"; search_userId := None |} added))
      "likes tea" = true.
Proof.
  destruct (C4_absent_userId_defaults (Scenario.forcedFailure 1700000000000)
              "likes tea" emptyServer unreachable "TEA") as (Hu & _ & Hfound & _).
  - vm_compute. reflexivity.
  - vm_compute. reflexivity.
  - vm_compute. lia.
  - split; [exact Hu | exact Hfound].
Defined.

(** ** C2: a record that fails to deserialize *)

(** C2, as stated, fails: with a dangling index entry the scan goes on and
    the search answers from the Primary Store, while with a malformed
    record in its place the search is served by the Fallback Store and
    answers differently. *)
Lemma C2_counterexample :
  let search := Scenario.ask "tea" "u1" in
  searchedIn healthy search Corrupted.dangling = Primary
  ∧ digest (searchMemories healthy search Corrupted.dangling)
    = "Found 1 matching memories for " +:+ quote +:+ "tea" +:+ quote +:+ ":" +:+
      newline +:+ newline +:+ "1. [2023-11-14] likes tea"
  ∧ searchedIn healthy search Corrupted.server = Fallback
  ∧ digest (searchMemories healthy search Corrupted.server)
    = "No memories found for query: " +:+ quote +:+ "tea" +:+ quote.
Proof. vm_compute. repeat split. Qed.

(** C2, amended: during a Primary Store search a stored record that fails
    to deserialize is not skipped: whatever the network does, the guarded
    block throws, what was collected is dropped, and the call is answered
    from the Fallback Store as an ordinary result, with both stores left
    as they were. *)
Theorem C2_malformed_record_falls_back (net : Net) (args : SearchArgs) (s : Server)
    (memoryId : string) :
  let userId := schema_userId (search_userId args) in
  memoryId ∈ members (searchKey userId) (redis s) →
  strings (redis s) !! memoryKey userId memoryId = Some Malformed →
  searchedIn net args s = Fallback
  ∧ searchMemories net args s =
    (s, formatResults (search_query args)
          (sortByTimestamp
             (searchInMemory userId (JS.toLowerCase (search_query args)) (memories s)))).
Proof.
  intros userId Hin Hbad.
  assert ((searchInDragonfly userId (JS.toLowerCase (search_query args)) net 0%nat (redis s)).2
          = None) as Hthrows.
  { unfold searchInDragonfly. rewrite bind_unfold.
    destruct (redis_smembers_inv (searchKey userId) net 0%nat (redis s)) as [[-> _]|[-> _]];
      [| reflexivity].
    apply (scan_malformed _ _ memoryId); [| exact Hbad].
    now apply elem_of_elements. }
  pose proof (searchInDragonfly_backend userId (JS.toLowerCase (search_query args))
                net 0%nat (redis s)) as Hsame.
  unfold searchedIn, searchMemories, collectMatches. fold userId.
  destruct (searchInDragonfly _ _ _ _ _) as [[n redis'] attempt].
  cbn in Hthrows, Hsame. subst. split; [reflexivity |].
  now destruct s.
Qed.

Lemma C2_witness :
  searchedIn healthy (Scenario.ask "tea" "u1") Corrupted.server = Fallback.
Proof.
  apply (C2_malformed_record_falls_back healthy (Scenario.ask "tea" "u1")
           Corrupted.server "a").
  - vm_compute. set_solver.
  - vm_compute. reflexivity.
Defined.

(** ** C5: the order of the digest *)

Lemma three_by_timestamp (m1 m2 m3 : Memory) (collected : list Memory) :
  timestamp m1 < timestamp m2 → timestamp m2 < timestamp m3 →
  collected ≡ₚ [m1; m2; m3] →
  sortByTimestamp collected = [m3; m2; m1].
Proof.
  intros H12 H23 Hperm.
  apply stable_sorted_unique.
  - apply sortByTimestamp_sorted.
  - repeat constructor; unfold newerFirst; lia.
  - intros t. rewrite sortByTimestamp_stable.
    assert (filter (sameTime t) collected ≡ₚ filter (sameTime t) [m1; m2; m3]) as Hf
      by now rewrite Hperm.
    rewrite !filter_sameTime_cons, filter_nil in Hf.
    rewrite !filter_sameTime_cons, filter_nil.
    repeat case_decide; try lia;
      first [ apply Permutation_nil_r in Hf | apply Permutation_singleton_r in Hf ];
      exact Hf.
Qed.

(** C5, as stated, fails on the Primary Store path: "tea B" is stored
    first and "tea A" second within one millisecond, both writes and the
    search are served by the Primary Store, and the digest renders "tea A"
    before "tea B": ties follow the order in which the index set is
    enumerated, not the order of storage. *)
Lemma C5_counterexample :
  writtenTo Ties.first (Scenario.note "tea B" "u1") emptyServer = Primary
  ∧ writtenTo Ties.second (Scenario.note "tea A" "u1") Ties.afterFirst = Primary
  ∧ searchedIn healthy (Scenario.ask "tea" "u1") Ties.afterBoth = Primary
  ∧ digest (searchMemories healthy (Scenario.ask "tea" "u1") Ties.afterBoth) =
    "Found 2 matching memories for " +:+ quote +:+ "tea" +:+ quote +:+ ":" +:+
    newline +:+ newline +:+ "1. [2023-11-14] tea A" +:+
    newline +:+ newline +:+ "2. [2023-11-14] tea B".
Proof. vm_compute. repeat split. Qed.

(** On the Fallback Store path the same two notes keep the order of
    storage. *)
Example Ties_in_array_keep_storage_order :
  digest (searchMemories unreachable (Scenario.ask "tea" "u1") Ties.inArray) =
  "Found 2 matching memories for " +:+ quote +:+ "tea" +:+ quote +:+ ":" +:+
  newline +:+ newline +:+ "1. [2023-11-14] tea B" +:+
  newline +:+ newline +:+ "2. [2023-11-14] tea A".
Proof. vm_compute. reflexivity. Qed.

(** C5, amended: [searchMemories] renders its matches by timestamp
    descending with a stable sort: the rendered list has the matches the
    serving store delivered, most recent first, and matches of equal
    timestamp keep the order of delivery.  On the Fallback Store path that
    is the order of the array, the order of storage; on the Primary Store
    path it is the order in which the index set is enumerated, which need
    not be the order of storage.  Three matches of timestamps
    t1 < t2 < t3 are rendered in the order t3, t2, t1. *)
Theorem C5_digest_most_recent_first (net : Net) (args : SearchArgs) (s : Server) :
  let user := schema_userId (search_userId args) in
  let queryLower := JS.toLowerCase (search_query args) in
  let delivered :=
    match searchedIn net args s with
    | Fallback =>
        filter (λ m, userId m = user
                     ∧ JS.includes (JS.toLowerCase (content m)) queryLower = true)
               (memories s)
    | Primary =>
        List.filter (λ m, JS.includes (JS.toLowerCase (content m)) queryLower)
          (omap (lookupRecord (redis s) user) (elements (members (searchKey user) (redis s))))
    end in
  ∃ shown : list Memory,
    (searchMemories net args s).2 = formatResults (search_query args) shown
    ∧ shown ≡ₚ delivered
    ∧ StronglySorted (λ a b, timestamp b ≤ timestamp a) shown
    ∧ (∀ t, filter (λ m, timestamp m = t) shown = filter (λ m, timestamp m = t) delivered)
    ∧ (∀ m1 m2 m3,
         timestamp m1 < timestamp m2 → timestamp m2 < timestamp m3 →
         delivered ≡ₚ [m1; m2; m3] →
         shown = [m3; m2; m1]
         ∧ digest (searchMemories net args s) =
           "Found 3 matching memories for " +:+ quote +:+ search_query args +:+ quote +:+
           ":" +:+ newline +:+ newline +:+
           "1. [" +:+ JS.isoDate (timestamp m3) +:+ "] " +:+ content m3 +:+
           newline +:+ newline +:+
           "2. [" +:+ JS.isoDate (timestamp m2) +:+ "] " +:+ content m2 +:+
           newline +:+ newline +:+
           "3. [" +:+ JS.isoDate (timestamp m1) +:+ "] " +:+ content m1).
Proof.
  intros user queryLower delivered.
  assert ((collectMatches net args s).2 = delivered) as Hdelivered.
  { unfold delivered. destruct (searchedIn net args s) eqn:Hpath.
    - rewrite (searchedIn_Primary _ _ _ Hpath). reflexivity.
    - rewrite (searchedIn_Fallback _ _ _ Hpath). reflexivity. }
  exists (sortByTimestamp delivered).
  assert ((searchMemories net args s).2
          = formatResults (search_query args) (sortByTimestamp delivered)) as Hres.
  { rewrite <- Hdelivered. unfold searchMemories.
    now destruct (collectMatches net args s) as [redis' found]. }
  split; [exact Hres |].
  split; [apply sortByTimestamp_perm |].
  split; [exact (sortByTimestamp_sorted delivered) |].
  split; [intros t; exact (sortByTimestamp_stable t delivered) |].
  intros m1 m2 m3 H12 H23 Hperm.
  pose proof (three_by_timestamp m1 m2 m3 delivered H12 H23 Hperm) as Hshown.
  split; [exact Hshown |].
  unfold digest. rewrite Hres, Hshown.
  cbn [formatResults length Nat.eqb fst snd text]. unfold foundText, resultsText.
  cbn [take imap length JS.join]. unfold renderMemory, compose.
  rewrite !splitHead_toISOString, !append_assoc. reflexivity.
Qed.

(** Three notes written on three days to the backend come back newest
    first. *)
Lemma C5_witness :
  digest (searchMemories healthy (Scenario.ask "tea" "u1") Ordering.threeNotes) =
  "Found 3 matching memories for " +:+ quote +:+ "tea" +:+ quote +:+ ":" +:+
  newline +:+ newline +:+ "1. [2023-11-16] tea on wednesday" +:+
  newline +:+ newline +:+ "2. [2023-11-15] tea on tuesday" +:+
  newline +:+ newline +:+ "3. [2023-11-14] tea on monday".
Proof.
  destruct (C5_digest_most_recent_first healthy (Scenario.ask "tea" "u1")
              Ordering.threeNotes) as (shown & _ & _ & _ & _ & Hthree).
  destruct (Hthree Ordering.monday Ordering.tuesday Ordering.wednesday) as [_ ->].
  - vm_compute. reflexivity.
  - vm_compute. reflexivity.
  - apply (bool_decide_unpack _). vm_compute. exact I.
  - vm_compute. reflexivity.
Defined.

(** ** C6: truncation to ten *)

(** C6: when more than ten memories match, the digest is a header that
    reports the number of all matches, followed by the ten most recent
    ones and no more: the matches, put most recent first with equal
    timestamps in the order they were collected, are ten memories followed
    by the rest, and the digest renders those ten as the lines
    [1. [<date>] <content>] to [10. [<date>] <content>], each date the
    date part of the ISO timestamp, a blank line between two of them. *)
Theorem C6_digest_truncated_to_ten (net : Net) (args : SearchArgs) (s : Server) :
  let collected := (collectMatches net args s).2 in
  (10 < length collected)%nat →
  ∃ m1 m2 m3 m4 m5 m6 m7 m8 m9 m10 rest,
    m1 :: m2 :: m3 :: m4 :: m5 :: m6 :: m7 :: m8 :: m9 :: m10 :: rest ≡ₚ collected
    ∧ StronglySorted (λ a b, timestamp b ≤ timestamp a)
        (m1 :: m2 :: m3 :: m4 :: m5 :: m6 :: m7 :: m8 :: m9 :: m10 :: rest)
    ∧ (∀ t, filter (λ m, timestamp m = t)
              (m1 :: m2 :: m3 :: m4 :: m5 :: m6 :: m7 :: m8 :: m9 :: m10 :: rest)
            = filter (λ m, timestamp m = t) collected)
    ∧ length rest = (length collected - 10)%nat
    ∧ digest (searchMemories net args s) =
      "Found " +:+ NilEmpty.string_of_uint (Nat.to_uint (length collected)) +:+
      " matching memories for " +:+ quote +:+ search_query args +:+ quote +:+ ":" +:+
      newline +:+ newline +:+
      "1. [" +:+ JS.isoDate (timestamp m1) +:+ "] " +:+ content m1 +:+
      newline +:+ newline +:+
      "2. [" +:+ JS.isoDate (timestamp m2) +:+ "] " +:+ content m2 +:+
      newline +:+ newline +:+
      "3. [" +:+ JS.isoDate (timestamp m3) +:+ "] " +:+ content m3 +:+
      newline +:+ newline +:+
      "4. [" +:+ JS.isoDate (timestamp m4) +:+ "] " +:+ content m4 +:+
      newline +:+ newline +:+
      "5. [" +:+ JS.isoDate (timestamp m5) +:+ "] " +:+ content m5 +:+
      newline +:+ newline +:+
      "6. [" +:+ JS.isoDate (timestamp m6) +:+ "] " +:+ content m6 +:+
      newline +:+ newline +:+
      "7. [" +:+ JS.isoDate (timestamp m7) +:+ "] " +:+ content m7 +:+
      newline +:+ newline +:+
      "8. [" +:+ JS.isoDate (timestamp m8) +:+ "] " +:+ content m8 +:+
      newline +:+ newline +:+
      "9. [" +:+ JS.isoDate (timestamp m9) +:+ "] " +:+ content m9 +:+
      newline +:+ newline +:+
      "10. [" +:+ JS.isoDate (timestamp m10) +:+ "] " +:+ content m10.
Proof.
  intros collected Hmany.
  pose proof (sortByTimestamp_length collected) as Hlen.
  pose proof (sortByTimestamp_perm collected) as Hperm.
  pose proof (sortByTimestamp_sorted collected) as Hsorted.
  pose proof (λ t, sortByTimestamp_stable t collected) as Hstable.
  assert ((searchMemories net args s).2
          = formatResults (search_query args) (sortByTimestamp collected)) as Hres.
  { unfold searchMemories, collected.
    now destruct (collectMatches net args s) as [redis' found]. }
  destruct (sortByTimestamp collected)
    as [|m1 [|m2 [|m3 [|m4 [|m5 [|m6 [|m7 [|m8 [|m9 [|m10 rest]]]]]]]]]];
    cbn [length] in Hlen; try lia.
  exists m1, m2, m3, m4, m5, m6, m7, m8, m9, m10, rest.
  split; [exact Hperm |]. split; [exact Hsorted |]. split; [exact Hstable |].
  split; [lia |].
  unfold digest. rewrite Hres.
  cbn [formatResults length Nat.eqb fst snd text]. unfold foundText, resultsText, JS.ofNat.
  cbn [length] in Hlen |- *. rewrite Hlen.
  cbn [take imap JS.join]. unfold renderMemory, compose.
  rewrite !splitHead_toISOString, !append_assoc. reflexivity.
Qed.

(** Fifteen notes, one a day: fifteen reported, the ten newest rendered,
    newest first. *)
Lemma C6_witness :
  let search := Scenario.ask "tea" "u1" in
  let collected := (collectMatches unreachable search Days.fifteenDays).2 in
  length collected = 15%nat
  ∧ (∃ m1 m2 m3 m4 m5 m6 m7 m8 m9 m10 rest,
       m1 :: m2 :: m3 :: m4 :: m5 :: m6 :: m7 :: m8 :: m9 :: m10 :: rest ≡ₚ collected
       ∧ StronglySorted (λ a b, timestamp b ≤ timestamp a)
           (m1 :: m2 :: m3 :: m4 :: m5 :: m6 :: m7 :: m8 :: m9 :: m10 :: rest)
       ∧ (∀ t, filter (λ m, timestamp m = t)
                 (m1 :: m2 :: m3 :: m4 :: m5 :: m6 :: m7 :: m8 :: m9 :: m10 :: rest)
               = filter (λ m, timestamp m = t) collected)
       ∧ length rest = (length collected - 10)%nat
       ∧ digest (searchMemories unreachable search Days.fifteenDays) =
         "Found " +:+ NilEmpty.string_of_uint (Nat.to_uint (length collected)) +:+
         " matching memories for " +:+ quote +:+ search_query search +:+ quote +:+ ":" +:+
         newline +:+ newline +:+
         "1. [" +:+ JS.isoDate (timestamp m1) +:+ "] " +:+ content m1 +:+
         newline +:+ newline +:+
         "2. [" +:+ JS.isoDate (timestamp m2) +:+ "] " +:+ content m2 +:+
         newline +:+ newline +:+
         "3. [" +:+ JS.isoDate (timestamp m3) +:+ "] " +:+ content m3 +:+
         newline +:+ newline +:+
         "4. [" +:+ JS.isoDate (timestamp m4) +:+ "] " +:+ content m4 +:+
         newline +:+ newline +:+
         "5. [" +:+ JS.isoDate (timestamp m5) +:+ "] " +:+ content m5 +:+
         newline +:+ newline +:+
         "6. [" +:+ JS.isoDate (timestamp m6) +:+ "] " +:+ content m6 +:+
         newline +:+ newline +:+
         "7. [" +:+ JS.isoDate (timestamp m7) +:+ "] " +:+ content m7 +:+
         newline +:+ newline +:+
         "8. [" +:+ JS.isoDate (timestamp m8) +:+ "] " +:+ content m8 +:+
         newline +:+ newline +:+
         "9. [" +:+ JS.isoDate (timestamp m9) +:+ "] " +:+ content m9 +:+
         newline +:+ newline +:+
         "10. [" +:+ JS.isoDate (timestamp m10) +:+ "] " +:+ content m10)
  ∧ digest (searchMemories unreachable search Days.fifteenDays) =
    "Found 15 matching memories for " +:+ quote +:+ "tea" +:+ quote +:+ ":" +:+
    newline +:+ newline +:+ "1. [2023-11-28] tea 15" +:+
    newline +:+ newline +:+ "2. [2023-11-27] tea 14" +:+
    newline +:+ newline +:+ "3. [2023-11-26] tea 13" +:+
    newline +:+ newline +:+ "4. [2023-11-25] tea 12" +:+
    newline +:+ newline +:+ "5. [2023-11-24] tea 11" +:+
    newline +:+ newline +:+ "6. [2023-11-23] tea 10" +:+
    newline +:+ newline +:+ "7. [2023-11-22] tea 09" +:+
    newline +:+ newline +:+ "8. [2023-11-21] tea 08" +:+
    newline +:+ newline +:+ "9. [2023-11-20] tea 07" +:+
    newline +:+ newline +:+ "10. [2023-11-19] tea 06".
Proof.
  split; [vm_compute; reflexivity |]. split.
  - apply (C6_digest_truncated_to_ten unreachable (Scenario.ask "tea" "u1")
             Days.fifteenDays).
    vm_compute. lia.
  - vm_compute. reflexivity.
Defined.

(** The fifteen notes of one millisecond: the first ten as stored. *)
Example Truncation_fifteenTeas_digest :
  digest (searchMemories unreachable (Scenario.ask "tea" "u1") Truncation.fifteenTeas) =
  "Found 15 matching memories for " +:+ quote +:+ "tea" +:+ quote +:+ ":" +:+
  newline +:+ newline +:+ "1. [2023-11-14] green tea" +:+
  newline +:+ newline +:+ "2. [2023-11-14] black tea" +:+
  newline +:+ newline +:+ "3. [2023-11-14] white tea" +:+
  newline +:+ newline +:+ "4. [2023-11-14] oolong tea" +:+
  newline +:+ newline +:+ "5. [2023-11-14] mint tea" +:+
  newline +:+ newline +:+ "6. [2023-11-14] jasmine tea" +:+
  newline +:+ newline +:+ "7. [2023-11-14] chai tea" +:+
  newline +:+ newline +:+ "8. [2023-11-14] iced tea" +:+
  newline +:+ newline +:+ "9. [2023-11-14] herbal tea" +:+
  newline +:+ newline +:+ "10. [2023-11-14] matcha tea".
Proof. vm_compute. reflexivity. Qed.

(** ** C7: no match *)

(** C7: a search that collects no match, on whichever store served it,
    answers with the text [No memories found for query: "<query>"]. *)
Theorem C7_no_match_message (net : Net) (args : SearchArgs) (s : Server) :
  (collectMatches net args s).2 = [] →
  (searchMemories net args s).2 =
  [ {| type := "text";
       text := "No memories found for query: " +:+ quote +:+ search_query args +:+ quote |} ].
Proof.
  intros Hnone. unfold searchMemories.
  destruct (collectMatches net args s) as [redis' found]. cbn in Hnone. subst found.
  reflexivity.
Qed.

Lemma C7_witness :
  (searchMemories healthy (Scenario.ask "coffee" "u1") Ordering.threeNotes).2 =
  [ {| type := "text";
       text := "No memories found for query: " +:+ quote +:+ "coffee" +:+ quote |} ].
Proof.
  apply (C7_no_match_message healthy (Scenario.ask "coffee" "u1") Ordering.threeNotes).
  vm_compute. reflexivity.
Defined.

(** ** C10: searching changes nothing *)

(** C10: [searchMemories] returns the server as it received it, the
    backend and the array alike, whatever the network does and whichever
    store serves the call; a request that changes the server is an
    [addMemory]. *)
Theorem C10_search_is_read_only (net : Net) (args : SearchArgs) (s : Server) :
  (searchMemories net args s).1 = s
  ∧ ∀ req, (handle req s).1 ≠ s → ∃ env args', req = AddMemory env args'.
Proof.
  assert (∀ net args, (searchMemories net args s).1 = s) as Hsearch.
  { clear. intros net args.
    pose proof (searchInDragonfly_backend (schema_userId (search_userId args))
                  (JS.toLowerCase (search_query args)) net 0%nat (redis s)) as Hsame.
    unfold searchMemories, collectMatches.
    destruct (searchInDragonfly _ _ _ _ _) as [[n redis'] attempt].
    cbn in Hsame. subst redis'. now destruct s. }
  split; [apply Hsearch |].
  intros [env args'|net' args'] Hchanged; [eauto |].
  cbn in Hchanged. now rewrite Hsearch in Hchanged.
Qed.

(** Searching the two users' server leaves it as it was; writing to the
    empty server does not. *)
Lemma C10_witness :
  (searchMemories unreachable (Scenario.ask "tea" "u1") TwoUsers.bothStores).1
  = TwoUsers.bothStores
  ∧ ∃ env args,
      AddMemory (Scenario.forcedFailure 1700000000000) (Scenario.note "likes tea" "u1")
      = AddMemory env args.
Proof.
  destruct (C10_search_is_read_only unreachable (Scenario.ask "tea" "u1")
              TwoUsers.bothStores) as [Hsame _].
  split; [exact Hsame |].
  destruct (C10_search_is_read_only unreachable (Scenario.ask "tea" "u1") emptyServer)
    as [_ Honly].
  apply Honly. intros H. apply (f_equal memories) in H. vm_compute in H. discriminate.
Defined.

(** ** C8: the identifier *)

Lemma substring_0_length (m : nat) (s : string) :
  String.length (String.substring 0 m s) = Nat.min m (String.length s).
Proof.
  revert s. induction m as [|m IH]; intros [|c s]; cbn; try reflexivity.
  now rewrite IH.
Qed.

Lemma substring_0_allBase36 (m : nat) (s : string) :
  allBase36 s = true → allBase36 (String.substring 0 m s) = true.
Proof.
  revert s. induction m as [|m IH]; intros [|c s]; cbn; try reflexivity.
  intros H. apply andb_true_iff in H as [Hc Hs]. now rewrite Hc, IH.
Qed.

(** The two shapes of a radix-36 text. *)
Lemma radix36Text_inv (r : string) :
  radix36Text r = true →
  r = "0"
  ∨ ∃ c digits, r = String "0" (String "." (String c digits))
                ∧ allBase36 (String c digits) = true.
Proof.
  destruct r as [|zero [|dot [|c digits]]]; try discriminate.
  - cbn. destruct (Ascii.eqb_spec zero "0") as [->|Hne]; intros H; [now left |].
    destruct zero as [[] [] [] [] [] [] [] []]; try discriminate; congruence.
  - cbn. intros H. destruct zero as [[] [] [] [] [] [] [] []]; try discriminate.
    destruct dot as [[] [] [] [] [] [] [] []]; discriminate.
  - intros H. right. exists c, digits.
    destruct zero as [[] [] [] [] [] [] [] []]; try discriminate.
    destruct dot as [[] [] [] [] [] [] [] []]; try discriminate.
    split; [reflexivity | exact H].
Qed.

(** The part of a radix-36 text that becomes the identifier is made of
    radix-36 digits. *)
Lemma substring_2_15_allBase36 (r : string) :
  radix36Text r = true → allBase36 (JS.substring 2 15 r) = true.
Proof.
  intros H. destruct (radix36Text_inv r H) as [->|(c & digits & -> & Hdigits)].
  - reflexivity.
  - change (JS.substring 2 15 (String "0" (String "." (String c digits))))
      with (String.substring 0 13 (String c digits)).
    now apply substring_0_allBase36.
Qed.

(** C8, as stated, fails: one half prints as "0.i" in radix 36 and gives
    the identifier "i"; zero prints as "0" and gives the empty
    identifier. *)
Lemma C8_counterexample :
  let half := {| random36 := exactRadix36 1 2; now := 1700000000000; add_net := healthy |} in
  let zero := {| random36 := exactRadix36 0 1; now := 1700000000000; add_net := healthy |} in
  let args := Scenario.note "likes tea" "u1" in
  random36 half = "0.i" ∧ radix36Text (random36 half) = true
  ∧ id (newMemory half args) = "i"
  ∧ (String.length (id (newMemory half args)) < 10)%nat
  ∧ random36 zero = "0" ∧ radix36Text (random36 zero) = true
  ∧ id (newMemory zero args) = "".
Proof. vm_compute. repeat split; lia. Qed.

(** C8, amended: every identifier generated by [addMemory] is made of the
    digits that follow "0." in the radix-36 text of the random number, cut
    after thirteen: it consists of characters of [0-9a-z], is at most
    thirteen characters long, and is as short as the text's fraction when
    that has fewer than thirteen digits. *)
Theorem C8_identifier_shape (env : AddEnv) (args : AddArgs) :
  radix36Text (random36 env) = true →
  allBase36 (id (newMemory env args)) = true
  ∧ (String.length (id (newMemory env args)) ≤ 13)%nat
  ∧ String.length (id (newMemory env args))
    = Nat.min 13 (String.length (random36 env) - 2).
Proof.
  intros Hrandom. split; [now apply substring_2_15_allBase36 |].
  unfold newMemory, JS.substring. cbn [id]. change (15 - 2)%nat with 13%nat.
  destruct (radix36Text_inv _ Hrandom) as [->|(c & digits & -> & _)].
  - cbn. split; [lia | reflexivity].
  - change (String.substring 2 13 (String "0" (String "." (String c digits))))
      with (String.substring 0 13 (String c digits)).
    rewrite substring_0_length.
    change (String.length (String "0" (String "." (String c digits))) - 2)%nat
      with (String.length (String c digits)).
    split; [lia | reflexivity].
Qed.

Lemma C8_witness :
  String.length (id (newMemory (Scenario.working "0.4fzyo82mvyr" 1700000000000)
                       (Scenario.note "likes tea" "u1"))) = 11%nat.
Proof.
  destruct (C8_identifier_shape (Scenario.working "0.4fzyo82mvyr" 1700000000000)
              (Scenario.note "likes tea" "u1")) as (_ & _ & ->).
  - vm_compute. reflexivity.
  - vm_compute. reflexivity.
Defined.

(** ** C9: a search stays within its user *)

Lemma allBase36_cons (c : ascii) (s : string) :
  allBase36 (String c s) = true → c ≠ ":"%char ∧ allBase36 s = true.
Proof.
  cbn. intros H. apply andb_true_iff in H as [Hc Hs]. split; [| exact Hs].
  intros ->. discriminate.
Qed.

Lemma allBase36_no_colon (u i : string) : allBase36 (u +:+ ":" +:+ i) = true → False.
Proof.
  induction u as [|c u IH].
  - rewrite append_nil_l, append_cons. intros H. now apply allBase36_cons in H as [H _].
  - rewrite append_cons. intros H. apply allBase36_cons in H as [_ H]. auto.
Qed.

(** The two families of keys are disjoint, as the two maps of [Redis]
    have it. *)
Lemma memoryKey_not_searchKey (u i u' : string) : memoryKey u i ≠ searchKey u'.
Proof. unfold memoryKey, searchKey. rewrite !append_cons. discriminate. Qed.

(** A key determines its user and its identifier. *)
Lemma memoryKey_inj (u u' i i' : string) :
  allBase36 i = true → allBase36 i' = true →
  memoryKey u i = memoryKey u' i' → u = u' ∧ i = i'.
Proof.
  intros Hi Hi'. unfold memoryKey.
  repeat rewrite append_cons. rewrite !append_nil_l. intros [= H].
  revert u' H. induction u as [|c u IH]; intros [|c' u'] H;
    repeat (rewrite append_cons in H || rewrite append_nil_l in H).
  - now injection H as ->.
  - injection H as <- ->. now apply allBase36_no_colon in Hi.
  - injection H as -> <-. now apply allBase36_no_colon in Hi'.
  - injection H as -> H. destruct (IH _ H) as [-> ->]. split; reflexivity.
Qed.

Lemma keysMatchRecords_withRecord (memory : Memory) (r : Redis) :
  allBase36 (id memory) = true → keysMatchRecords r → keysMatchRecords (withRecord memory r).
Proof.
  intros Hid [Hstrings Hsets]. split; [| exact Hsets].
  intros key value. cbn. rewrite lookup_insert. case_decide as E.
  - intros [= <-]. exists memory. now subst.
  - apply Hstrings.
Qed.

Lemma keysMatchRecords_withIndexEntry (memory : Memory) (r : Redis) :
  allBase36 (id memory) = true → keysMatchRecords r → keysMatchRecords (withIndexEntry memory r).
Proof.
  intros Hid [Hstrings Hsets]. split; [exact Hstrings |].
  intros key memoryIds memoryId. cbn. rewrite lookup_insert. case_decide as E.
  - intros [= <-] Hin. apply elem_of_union in Hin as [Hin|Hin].
    + apply elem_of_singleton in Hin. now subst.
    + unfold members in Hin.
      destruct (sets r !! searchKey (userId memory)) as [ids|] eqn:Eids; cbn in Hin.
      * eapply Hsets; eassumption.
      * now apply not_elem_of_empty in Hin.
  - apply Hsets.
Qed.

Lemma reachable_keysMatchRecords (s : Server) : reachable s → keysMatchRecords (redis s).
Proof.
  induction 1 as [|env args s _ IH Hrandom|net args s _ IH|s _ IH].
  - split; intros *; cbn; rewrite lookup_empty; discriminate.
  - assert (allBase36 (id (newMemory env args)) = true) as Hid
      by apply (substring_2_15_allBase36 _ Hrandom).
    pose proof (keysMatchRecords_withRecord _ _ Hid IH) as Hrec.
    pose proof (keysMatchRecords_withIndexEntry _ _ Hid Hrec) as Hidx.
    rewrite addMemory_state. cbn zeta. rewrite storeInDragonfly_cases.
    destruct (add_net env 0%nat); [destruct (add_net env 1%nat) | |]; assumption.
  - pose proof (searchInDragonfly_backend (schema_userId (search_userId args))
                  (JS.toLowerCase (search_query args)) net 0%nat (redis s)) as Hsame.
    unfold searchMemories, collectMatches.
    destruct (searchInDragonfly _ _ _ _ _) as [[n redis'] attempt].
    cbn in Hsame. now subst redis'.
  - exact IH.
Qed.

(** C9: on every server the two operations can produce, each match a
    search collects for a userId, and so each memory its digest renders,
    was created under that userId, whether the matches come from the
    backend's keys and index set or from the array. *)
Theorem C9_search_scoped_to_user (net : Net) (args : SearchArgs) (s : Server)
    (memory : Memory) :
  reachable s →
  memory ∈ sortByTimestamp (collectMatches net args s).2 →
  userId memory = schema_userId (search_userId args).
Proof.
  intros Hreach Hin. rewrite sortByTimestamp_perm in Hin.
  destruct (reachable_keysMatchRecords s Hreach) as [Hstrings Hsets].
  destruct (searchedIn net args s) eqn:Hpath.
  - rewrite (searchedIn_Primary _ _ _ Hpath) in Hin.
    apply elem_of_primaryMatches in Hin as [(memoryId & Hid & Hrecord) _].
    apply elem_of_elements in Hid. unfold members in Hid.
    destruct (sets (redis s) !! searchKey (schema_userId (search_userId args)))
      as [ids|] eqn:Eids; cbn in Hid; [| now apply not_elem_of_empty in Hid].
    pose proof (Hsets _ _ _ Eids Hid) as Hbase.
    unfold lookupRecord in Hrecord.
    destruct (strings (redis s) !! memoryKey (schema_userId (search_userId args)) memoryId)
      as [[| |stored]|] eqn:Ekey; try discriminate.
    injection Hrecord as ->.
    destruct (Hstrings _ _ Ekey) as (m & [= <-] & Hkey & Hbase').
    now destruct (memoryKey_inj _ _ _ _ Hbase Hbase' Hkey) as [-> _].
  - rewrite (searchedIn_Fallback _ _ _ Hpath) in Hin.
    unfold searchInMemory in Hin. apply list_elem_of_filter in Hin as [[-> _] _].
    reflexivity.
Qed.

Lemma TwoUsers_reachable : reachable TwoUsers.bothStores.
Proof.
  unfold TwoUsers.bothStores. cbn zeta.
  repeat (apply reachable_add; [| vm_compute; reflexivity]).
  apply reachable_start.
Qed.

Example TwoUsers_primary_digest :
  digest (searchMemories healthy (Scenario.ask "tea" "u1") TwoUsers.bothStores) =
  "Found 1 matching memories for " +:+ quote +:+ "tea" +:+ quote +:+ ":" +:+
  newline +:+ newline +:+ "1. [2023-11-14] likes tea".
Proof. vm_compute. reflexivity. Qed.

Example TwoUsers_fallback_digest :
  digest (searchMemories unreachable (Scenario.ask "tea" "u2") TwoUsers.bothStores) =
  "Found 1 matching memories for " +:+ quote +:+ "tea" +:+ quote +:+ ":" +:+
  newline +:+ newline +:+ "1. [2023-11-14] never drinks tea".
Proof. vm_compute. reflexivity. Qed.

Lemma C9_witness :
  userId TwoUsers.firstNote = schema_userId (search_userId (Scenario.ask "tea" "u1")).
Proof.
  apply (C9_search_scoped_to_user healthy (Scenario.ask "tea" "u1") TwoUsers.bothStores
           TwoUsers.firstNote).
  - exact TwoUsers_reachable.
  - apply (bool_decide_unpack _). vm_compute. exact I.
Defined.

(** * Further properties of the code *)

(** ** The [preValidation] hook *)

Lemma substringFrom_append (a b : string) :
  Fastify.substringFrom (String.length a) (a +:+ b) = b.
Proof.
  induction a as [|x a IH]; [now destruct b |].
  rewrite append_cons. exact IH.
Qed.

Lemma startsWith_decompose (s searchString : string) :
  Fastify.startsWith s searchString = true ↔
  s = searchString +:+ Fastify.substringFrom (String.length searchString) s.
Proof.
  unfold Fastify.startsWith. split.
  - intros H. destruct (prefix_decompose _ _ H) as [q ->].
    now rewrite substringFrom_append.
  - intros ->. apply prefix_append.
Qed.

(** X13: the hook lets a request through exactly when its URL is
    [/health] or its Authorization header is "Bearer " followed by the
    expected token; every other request is answered 401. *)
Theorem preValidation_continues_iff (MCP_BEARER_TOKEN : option string)
    (request : Fastify.HttpRequest) :
  Fastify.preValidation MCP_BEARER_TOKEN request = Fastify.Continue
  ↔ Fastify.url request = "/health"
    ∨ Fastify.authorization request
      = Some ("Bearer " +:+ Fastify.expectedToken MCP_BEARER_TOKEN).
Proof.
  unfold Fastify.preValidation.
  destruct (String.eqb_spec (Fastify.url request) "/health") as [Hurl|Hurl];
    [split; [now left | reflexivity] |].
  destruct (Fastify.authorization request) as [authHeader|];
    [| split; [discriminate | intros [?|?]; [contradiction | discriminate]]].
  destruct (String.eqb_spec authHeader "") as [->|Hne]; cbn [orb].
  { split; [discriminate | intros [?|H]; [contradiction | inversion H]]. }
  destruct (Fastify.startsWith authHeader "Bearer ") eqn:Hprefix; cbn [negb].
  - apply startsWith_decompose in Hprefix. cbn [String.length] in Hprefix.
    destruct (String.eqb_spec (Fastify.substringFrom 7 authHeader)
                (Fastify.expectedToken MCP_BEARER_TOKEN)) as [Htoken|Htoken]; cbn [negb].
    + split; [intros _ | reflexivity]. right. now rewrite <- Htoken, <- Hprefix.
    + split; [discriminate |]. intros [?|[= H]]; [contradiction |].
      exfalso. apply Htoken. rewrite H. apply (substringFrom_append "Bearer ").
  - split; [discriminate |]. intros [?|[= H]]; [contradiction |].
    rewrite H in Hprefix. unfold Fastify.startsWith in Hprefix.
    now rewrite prefix_append in Hprefix.
Qed.

(** X14: when [MCP_BEARER_TOKEN] is unset or empty the expected token is
    the built-in one: a request for another URL than [/health] passes
    exactly with the header "Bearer sk-combinedmemory-v2-secure-token-2024",
    so an empty variable neither switches the check off nor makes the empty
    token valid. *)
Theorem preValidation_default_token (MCP_BEARER_TOKEN : option string)
    (request : Fastify.HttpRequest) :
  MCP_BEARER_TOKEN = None ∨ MCP_BEARER_TOKEN = Some "" →
  Fastify.url request ≠ "/health" →
  (Fastify.preValidation MCP_BEARER_TOKEN request = Fastify.Continue
   ↔ Fastify.authorization request = Some "Bearer sk-combinedmemory-v2-secure-token-2024")
  ∧ (Fastify.authorization request = Some "Bearer " →
     Fastify.preValidation MCP_BEARER_TOKEN request
     = Fastify.Unauthorized "Invalid bearer token").
Proof.
  intros Henv Hurl.
  assert (Fastify.expectedToken MCP_BEARER_TOKEN = Fastify.DEFAULT_BEARER_TOKEN) as Hexpected
    by (destruct Henv as [->| ->]; reflexivity).
  split.
  - rewrite preValidation_continues_iff, Hexpected. split.
    + intros [?|H]; [contradiction | exact H].
    + intros H. now right.
  - intros Hheader. unfold Fastify.preValidation.
    destruct (String.eqb_spec (Fastify.url request) "/health"); [contradiction |].
    rewrite Hheader, Hexpected. reflexivity.
Qed.

Lemma preValidation_default_token_witness :
  Fastify.preValidation (Some "")
    {| Fastify.url := "/mcp"; Fastify.authorization := Some "Bearer " |}
  = Fastify.Unauthorized "Invalid bearer token".
Proof.
  apply (preValidation_default_token (Some "")
           {| Fastify.url := "/mcp"; Fastify.authorization := Some "Bearer " |}).
  - now right.
  - discriminate.
  - reflexivity.
Defined.

Example preValidation_health_query_string :
  Fastify.preValidation None
    {| Fastify.url := "/health?probe=1"; Fastify.authorization := None |}
  = Fastify.Unauthorized "Missing or invalid Authorization header".
Proof. reflexivity. Qed.

Example preValidation_lower_case_scheme :
  Fastify.preValidation None
    {| Fastify.url := "/mcp";
       Fastify.authorization := Some "bearer sk-combinedmemory-v2-secure-token-2024" |}
  = Fastify.Unauthorized "Missing or invalid Authorization header".
Proof. reflexivity. Qed.

(** ** The health route *)

(** X15: the health route answers with status "healthy" whatever the
    backend does; it reports the backend as connected exactly when the
    ping resolves and the fallback as in use exactly when it does not, and
    it leaves both stores as they were. *)
Theorem health_reports_backend (net : Net) (now : Z) (s : Server) :
  (Fastify.health net now s).1 = s
  ∧ Fastify.status (Fastify.health net now s).2 = "healthy"
  ∧ (Fastify.dragonfly (Fastify.health net now s).2 = "connected" ↔ net 0%nat = Resolves)
  ∧ (Fastify.dragonfly (Fastify.health net now s).2 = "unavailable" ↔ net 0%nat ≠ Resolves)
  ∧ (Fastify.fallback (Fastify.health net now s).2 = "in-memory" ↔ net 0%nat ≠ Resolves)
  ∧ (Fastify.fallback (Fastify.health net now s).2 = "not needed" ↔ net 0%nat = Resolves).
Proof.
  unfold Fastify.health, Fastify.redis_ping, command.
  destruct s as [r ms].
  destruct (net 0%nat); cbn; repeat split; try discriminate; try congruence;
    intros H; try reflexivity; now contradict H.
Qed.

(** ** The reply of [addMemory] *)

Lemma substring_0_all (n : nat) (s : string) :
  (String.length s ≤ n)%nat → String.substring 0 n s = s.
Proof.
  revert s. induction n as [|n IH]; intros [|c s] H; cbn in *; try reflexivity; try lia.
  rewrite IH by lia. reflexivity.
Qed.

Lemma substring_0_prefix (n : nat) (s : string) :
  ∃ rest, s = String.substring 0 n s +:+ rest.
Proof.
  revert s. induction n as [|n IH]; intros [|c s]; cbn.
  - now exists "".
  - now exists (String c s).
  - now exists "".
  - destruct (IH s) as [rest E]. exists rest. rewrite append_cons. congruence.
Qed.

(** X1: the reply of [addMemory] is the confirmation text for the userId
    and the content alone: it is the same whichever store took the write,
    whatever the stores held, the clock showed and the random number
    was. *)
Theorem addMemory_reply_hides_store (env env' : AddEnv) (args : AddArgs) (s s' : Server) :
  (addMemory env args s).2 = (addMemory env' args s').2
  ∧ (addMemory env args s).2 =
    [ {| type := "text";
         text := addedText (schema_userId (add_userId args)) (add_content args) |} ].
Proof.
  assert (∀ env s, (addMemory env args s).2 =
            [ {| type := "text";
                 text := addedText (schema_userId (add_userId args)) (add_content args) |} ])
    as Hreply.
  { clear. intros env s. unfold addMemory.
    now destruct (storeInDragonfly _ _ _ _) as [[n redis'] attempt]. }
  split; [now rewrite !Hreply | apply Hreply].
Qed.

(** X2: the confirmation quotes the content in full when it has at most
    100 characters, and otherwise its first 100 characters followed by
    "...". *)
Theorem addedText_preview (userId content : string) :
  ((String.length content ≤ 100)%nat →
   addedText userId content =
   "Memory added successfully for user " +:+ userId +:+ ": " +:+ quote +:+
   content +:+ quote)
  ∧ ((100 < String.length content)%nat →
     ∃ preview rest,
       content = preview +:+ rest
       ∧ String.length preview = 100%nat
       ∧ addedText userId content =
         "Memory added successfully for user " +:+ userId +:+ ": " +:+ quote +:+
         preview +:+ "..." +:+ quote).
Proof.
  unfold addedText, JS.substring. change (100 - 0)%nat with 100%nat. split; intros Hlen.
  - rewrite (substring_0_all 100 content Hlen).
    destruct (Nat.ltb_spec 100 (String.length content)); [lia | reflexivity].
  - destruct (substring_0_prefix 100 content) as [rest E].
    exists (String.substring 0 100 content), rest.
    split; [exact E |]. split; [rewrite substring_0_length; lia |].
    destruct (Nat.ltb_spec 100 (String.length content)); [reflexivity | lia].
Qed.

(** ** What no request removes *)

Lemma members_withRecord (memory : Memory) (key : string) (r : Redis) :
  members key (withRecord memory r) = members key r.
Proof. reflexivity. Qed.

Lemma members_withIndexEntry (memory : Memory) (key : string) (r : Redis) :
  members key (withIndexEntry memory r) =
  if decide (searchKey (userId memory) = key)
  then {[id memory]} ∪ members key r
  else members key r.
Proof.
  unfold members at 1. cbn. rewrite lookup_insert. case_decide; [now subst | reflexivity].
Qed.

Lemma searchMemories_state (net : Net) (args : SearchArgs) (s : Server) :
  (searchMemories net args s).1 = s.
Proof.
  pose proof (searchInDragonfly_backend (schema_userId (search_userId args))
                (JS.toLowerCase (search_query args)) net 0%nat (redis s)) as Hsame.
  unfold searchMemories, collectMatches.
  destruct (searchInDragonfly _ _ _ _ _) as [[n redis'] attempt].
  cbn in Hsame. subst redis'. now destruct s.
Qed.


(** ** The two stores are never merged *)

Lemma collectMatches_snd (net : Net) (args : SearchArgs) (s : Server) :
  (collectMatches net args s).2 =
  match (searchInDragonfly (schema_userId (search_userId args))
           (JS.toLowerCase (search_query args)) net 0%nat (redis s)).2 with
  | Some matchingMemories => matchingMemories
  | None => searchInMemory (schema_userId (search_userId args))
              (JS.toLowerCase (search_query args)) (memories s)
  end.
Proof.
  unfold collectMatches.
  now destruct (searchInDragonfly _ _ _ _ _) as [[n redis'] attempt].
Qed.

Lemma searchedIn_attempt (net : Net) (args : SearchArgs) (s : Server) :
  searchedIn net args s =
  match (searchInDragonfly (schema_userId (search_userId args))
           (JS.toLowerCase (search_query args)) net 0%nat (redis s)).2 with
  | Some _ => Primary
  | None => Fallback
  end.
Proof.
  unfold searchedIn.
  now destruct (searchInDragonfly _ _ _ _ _) as [[n redis'] attempt].
Qed.

(** A scan reads the backend only at the keys of the entries it is
    given. *)
Lemma scan_agree (userId queryLower : string) (memoryIds : list string)
    (acc : list Memory) (net : Net) (n : nat) (r r' : Redis) :
  (∀ memoryId, memoryId ∈ memoryIds →
     strings r !! memoryKey userId memoryId = strings r' !! memoryKey userId memoryId) →
  (scan userId queryLower memoryIds acc net n r).2
  = (scan userId queryLower memoryIds acc net n r').2.
Proof.
  revert acc n. induction memoryIds as [|x rest IH]; intros acc n Hsame; [reflexivity |].
  assert (∀ memoryId, memoryId ∈ rest →
            strings r !! memoryKey userId memoryId = strings r' !! memoryKey userId memoryId)
    as Hrest by (intros ? ?; apply Hsame; now apply elem_of_cons; right).
  rewrite !scan_unfold, <- (Hsame x (list_elem_of_here _ _)).
  destruct (net n); try reflexivity.
  destruct (strings r !! memoryKey userId x) as [[| |memory]|]; try reflexivity; auto.
  destruct (matchesQuery queryLower memory); auto.
Qed.

(** A search of the backend reads the user's index set and the keys of
    its entries, nothing else. *)
Lemma searchInDragonfly_agree (userId queryLower : string) (net : Net) (n : nat)
    (r r' : Redis) :
  members (searchKey userId) r = members (searchKey userId) r' →
  (∀ memoryId, memoryId ∈ members (searchKey userId) r →
     strings r !! memoryKey userId memoryId = strings r' !! memoryKey userId memoryId) →
  (searchInDragonfly userId queryLower net n r).2
  = (searchInDragonfly userId queryLower net n r').2.
Proof.
  intros Hmembers Hsame. unfold searchInDragonfly. rewrite !bind_unfold.
  unfold redis_smembers, command. rewrite <- Hmembers.
  destruct (net n); try reflexivity.
  apply scan_agree. intros memoryId Hin. apply Hsame. now apply elem_of_elements.
Qed.

(** X6: a memory written to the Primary Store is not seen by a search that
    is served by the Fallback Store: such a search collects from the array
    as it was before the write. *)
Theorem primary_write_invisible_to_fallback_search (env : AddEnv) (args : AddArgs)
    (s : Server) (net : Net) (search : SearchArgs) :
  writtenTo env args s = Primary →
  searchedIn net search (addMemory env args s).1 = Fallback →
  (collectMatches net search (addMemory env args s).1).2
  = searchInMemory (schema_userId (search_userId search))
      (JS.toLowerCase (search_query search)) (memories s).
Proof.
  intros Hwritten Hsearched.
  rewrite (searchedIn_Fallback _ _ _ Hsearched), (writtenTo_Primary _ _ _ Hwritten).
  reflexivity.
Qed.

Lemma primary_write_invisible_to_fallback_search_witness :
  (collectMatches unreachable (Scenario.ask "tea" "u1")
     (addMemory (Scenario.working "0.4fzyo82mvyr" 1700000000000)
        (Scenario.note "likes tea" "u1") emptyServer).1).2
  = searchInMemory (schema_userId (search_userId (Scenario.ask "tea" "u1")))
      (JS.toLowerCase (search_query (Scenario.ask "tea" "u1"))) (memories emptyServer).
Proof.
  apply (primary_write_invisible_to_fallback_search
           (Scenario.working "0.4fzyo82mvyr" 1700000000000)
           (Scenario.note "likes tea" "u1") emptyServer unreachable
           (Scenario.ask "tea" "u1")).
  - vm_compute. reflexivity.
  - vm_compute. reflexivity.
Defined.

(** X7: a memory written while the backend refuses the record write
    leaves the backend untouched, and a later search served by the Primary
    Store collects what it would have collected before the write: the
    memory stays in the array only. *)
Theorem outage_write_invisible_to_primary_search (env : AddEnv) (args : AddArgs)
    (s : Server) (net : Net) (search : SearchArgs) :
  add_net env 0%nat = Rejects →
  searchedIn net search (addMemory env args s).1 = Primary →
  redis (addMemory env args s).1 = redis s
  ∧ memories (addMemory env args s).1 = memories s ++ [newMemory env args]
  ∧ (collectMatches net search (addMemory env args s).1).2
    = (collectMatches net search s).2.
Proof.
  intros Hrefused Hsearched.
  assert ((addMemory env args s).1 =
          {| redis := redis s; memories := memories s ++ [newMemory env args] |}) as Hadded.
  { rewrite addMemory_state. cbn zeta. rewrite storeInDragonfly_cases, Hrefused.
    reflexivity. }
  rewrite Hadded in *. repeat split.
  rewrite searchedIn_attempt in Hsearched. cbn [redis] in Hsearched.
  rewrite !collectMatches_snd. cbn [redis memories].
  destruct (searchInDragonfly _ _ _ _ _).2; [reflexivity | discriminate].
Qed.

Lemma outage_write_invisible_to_primary_search_witness :
  (collectMatches healthy (Scenario.ask "tea" "u1")
     (addMemory (Scenario.forcedFailure 1700000000000)
        (Scenario.note "likes tea" "u1") emptyServer).1).2
  = (collectMatches healthy (Scenario.ask "tea" "u1") emptyServer).2.
Proof.
  apply (outage_write_invisible_to_primary_search
           (Scenario.forcedFailure 1700000000000)
           (Scenario.note "likes tea" "u1") emptyServer healthy
           (Scenario.ask "tea" "u1")).
  - reflexivity.
  - vm_compute. reflexivity.
Defined.

Lemma append_inj_l (a b c : string) : a +:+ b = a +:+ c → b = c.
Proof.
  induction a as [|x a IH]; [trivial |].
  rewrite !append_cons. intros [= H]. auto.
Qed.

Lemma memoryKey_inj_id (u i i' : string) : memoryKey u i = memoryKey u i' → i = i'.
Proof.
  unfold memoryKey. intros H.
  apply append_inj_l in H. apply append_inj_l in H. now apply append_inj_l in H.
Qed.

(** X8: when the record write is applied and the index update is not (the
    index update is refused, or the record write times out), the memory
    goes to the array and its record stays in the backend without an index
    entry: a search for its user served by the Primary Store collects what
    it would have collected before. *)
Theorem half_written_record_is_not_found (env : AddEnv) (args : AddArgs)
    (s : Server) (net : Net) (search : SearchArgs) :
  (add_net env 0%nat = Resolves ∧ add_net env 1%nat = Rejects)
  ∨ add_net env 0%nat = RejectsLate →
  id (newMemory env args)
    ∉ members (searchKey (userId (newMemory env args))) (redis s) →
  schema_userId (search_userId search) = userId (newMemory env args) →
  searchedIn net search (addMemory env args s).1 = Primary →
  strings (redis (addMemory env args s).1)
    !! memoryKey (userId (newMemory env args)) (id (newMemory env args))
  = Some (Serialized (newMemory env args))
  ∧ memories (addMemory env args s).1 = memories s ++ [newMemory env args]
  ∧ (collectMatches net search (addMemory env args s).1).2
    = (collectMatches net search s).2.
Proof.
  intros Hnet Hfresh Huser Hsearched.
  set (memory := newMemory env args) in *.
  assert ((addMemory env args s).1 =
          {| redis := withRecord memory (redis s); memories := memories s ++ [memory] |})
    as Hadded.
  { rewrite addMemory_state. cbn zeta. fold memory. rewrite storeInDragonfly_cases.
    destruct Hnet as [[-> ->]| ->]; reflexivity. }
  rewrite Hadded in *. cbn [redis memories].
  split; [cbn; apply lookup_insert_eq |]. split; [reflexivity |].
  rewrite searchedIn_attempt in Hsearched. cbn [redis] in Hsearched.
  rewrite !collectMatches_snd. cbn [redis memories].
  rewrite Huser in *.
  rewrite (searchInDragonfly_agree (userId memory) _ net 0%nat
             (withRecord memory (redis s)) (redis s)) in *.
  - destruct (searchInDragonfly _ _ _ _ _).2; [reflexivity | discriminate].
  - reflexivity.
  - intros memoryId Hin. cbn. apply lookup_insert_ne.
    intros Hkey. apply memoryKey_inj_id in Hkey. subst memoryId.
    now rewrite members_withRecord in Hin.
  - reflexivity.
  - intros memoryId Hin. cbn. apply lookup_insert_ne.
    intros Hkey. apply memoryKey_inj_id in Hkey. subst memoryId.
    now rewrite members_withRecord in Hin.
Qed.

Lemma half_written_record_is_not_found_witness :
  let env := {| random36 := "0.4fzyo82mvyr"; now := 1700000000000;
                add_net := Scenario.indexRefused |} in
  (collectMatches healthy (Scenario.ask "tea" "u1")
     (addMemory env (Scenario.note "likes tea" "u1") emptyServer).1).2
  = (collectMatches healthy (Scenario.ask "tea" "u1") emptyServer).2.
Proof.
  apply (half_written_record_is_not_found
           {| random36 := "0.4fzyo82mvyr"; now := 1700000000000;
              add_net := Scenario.indexRefused |}
           (Scenario.note "likes tea" "u1") emptyServer healthy (Scenario.ask "tea" "u1")).
  - left. split; reflexivity.
  - vm_compute. set_solver.
  - reflexivity.
  - vm_compute. reflexivity.
Defined.

(** ** Identifiers that collide *)

(** X4: collisions of identifiers are not checked: when [addMemory] draws
    for a user an identifier that one of the user's memories already has
    and the write goes to the Primary Store, the earlier record is
    replaced, and no search served by the Primary Store collects the
    earlier memory any more. *)
Theorem colliding_identifier_replaces_record (env : AddEnv) (args : AddArgs)
    (s : Server) (net : Net) (search : SearchArgs) (old : Memory) :
  reachable s →
  id old = id (newMemory env args) →
  userId old = userId (newMemory env args) →
  old ≠ newMemory env args →
  writtenTo env args s = Primary →
  searchedIn net search (addMemory env args s).1 = Primary →
  old ∉ (collectMatches net search (addMemory env args s).1).2.
Proof.
  intros Hreach Hid Huser Hdiff Hwritten Hsearched Hin.
  destruct (reachable_keysMatchRecords s Hreach) as [Hstrings _].
  rewrite (searchedIn_Primary _ _ _ Hsearched), (writtenTo_Primary _ _ _ Hwritten) in Hin.
  cbn [redis] in Hin.
  apply elem_of_primaryMatches in Hin as [(memoryId & _ & Hrecord) _].
  unfold lookupRecord in Hrecord. cbn in Hrecord.
  rewrite lookup_insert in Hrecord. case_decide as Hkey.
  - injection Hrecord as Heq. now apply Hdiff.
  - destruct (strings (redis s) !! memoryKey (schema_userId (search_userId search)) memoryId)
      as [[| |stored]|] eqn:Estored; try discriminate.
    injection Hrecord as ->.
    destruct (Hstrings _ _ Estored) as (m & [= <-] & Hstoredkey & _).
    apply Hkey. now rewrite Hstoredkey, Hid, Huser.
Qed.

Lemma Collision_afterFirst_reachable : reachable Collision.afterFirst.
Proof. apply reachable_add; [apply reachable_start | reflexivity]. Qed.

Example Collision_before :
  (collectMatches healthy (Scenario.ask "likes" "u1") Collision.afterFirst).2
  = [Collision.old].
Proof. vm_compute. reflexivity. Qed.

Example Collision_after :
  digest (searchMemories healthy (Scenario.ask "likes" "u1")
            (addMemory (Scenario.working "0.4fzyo82mvyr" 1700000000001)
               Collision.second Collision.afterFirst).1)
  = "Found 1 matching memories for " +:+ quote +:+ "likes" +:+ quote +:+ ":" +:+
    newline +:+ newline +:+ "1. [2023-11-14] likes coffee".
Proof. vm_compute. reflexivity. Qed.

Lemma colliding_identifier_replaces_record_witness :
  Collision.old
  ∉ (collectMatches healthy (Scenario.ask "likes" "u1")
       (addMemory (Scenario.working "0.4fzyo82mvyr" 1700000000001)
          Collision.second Collision.afterFirst).1).2.
Proof.
  apply (colliding_identifier_replaces_record
           (Scenario.working "0.4fzyo82mvyr" 1700000000001) Collision.second
           Collision.afterFirst healthy (Scenario.ask "likes" "u1") Collision.old).
  - exact Collision_afterFirst_reachable.
  - reflexivity.
  - reflexivity.
  - discriminate.
  - vm_compute. reflexivity.
  - vm_compute. reflexivity.
Defined.

(** ** Users do not disturb each other *)

Lemma searchKey_inj (u u' : string) : searchKey u = searchKey u' → u = u'.
Proof. unfold searchKey. apply append_inj_l. Qed.

Lemma searchInMemory_other_user (user queryLower : string) (memories : list Memory)
    (memory : Memory) :
  user ≠ userId memory →
  searchInMemory user queryLower (memories ++ [memory]) = searchInMemory user queryLower memories.
Proof.
  intros Hother. unfold searchInMemory.
  rewrite filter_app, filter_cons, filter_nil, decide_False, app_nil_r; [reflexivity |].
  intros [Hsame _]. now apply Hother.
Qed.

(** X5: on every server the operations can produce, an [addMemory] for one
    user, however its commands end, leaves what a search for any other
    user collects as it was. *)
Theorem add_leaves_other_users_results (env : AddEnv) (args : AddArgs) (s : Server)
    (net : Net) (search : SearchArgs) :
  reachable s →
  radix36Text (random36 env) = true →
  schema_userId (search_userId search) ≠ userId (newMemory env args) →
  (collectMatches net search (addMemory env args s).1).2 = (collectMatches net search s).2.
Proof.
  intros Hreach Hrandom Hother.
  set (memory := newMemory env args) in *.
  set (user := schema_userId (search_userId search)) in *.
  destruct (reachable_keysMatchRecords s Hreach) as [_ Hsets].
  assert (allBase36 (id memory) = true) as Hid
    by apply (substring_2_15_allBase36 _ Hrandom).
  assert (∀ r', r' = redis s ∨ r' = withRecord memory (redis s)
                ∨ r' = withIndexEntry memory (withRecord memory (redis s)) →
            (searchInDragonfly user (JS.toLowerCase (search_query search)) net 0%nat r').2
            = (searchInDragonfly user (JS.toLowerCase (search_query search)) net 0%nat
                 (redis s)).2) as Hbackend.
  { intros r' Hr'. apply searchInDragonfly_agree.
    - destruct Hr' as [->|[->| ->]]; try reflexivity.
      rewrite members_withIndexEntry, members_withRecord.
      case_decide as Hkey; [| reflexivity].
      apply searchKey_inj in Hkey. now contradict Hother.
    - intros memoryId Hin.
      assert (memoryId ∈ members (searchKey user) (redis s)) as Hin'.
      { destruct Hr' as [->|[->| ->]]; try exact Hin.
        rewrite members_withIndexEntry, members_withRecord in Hin.
        case_decide as Hkey; [| exact Hin].
        apply searchKey_inj in Hkey. now contradict Hother. }
      assert (allBase36 memoryId = true) as Hbase.
      { unfold members in Hin'.
        destruct (sets (redis s) !! searchKey user) as [ids|] eqn:Eids; cbn in Hin';
          [eapply Hsets; eassumption | now apply not_elem_of_empty in Hin']. }
      assert (memoryKey (userId memory) (id memory) ≠ memoryKey user memoryId) as Hkey.
      { intros Hkey. apply memoryKey_inj in Hkey as [Hu _]; [| assumption..].
        now apply Hother. }
      destruct Hr' as [->|[->| ->]]; try reflexivity;
        cbn; now rewrite lookup_insert_ne. }
  rewrite !collectMatches_snd. fold user.
  rewrite addMemory_state. cbn zeta. fold memory. rewrite storeInDragonfly_cases.
  destruct (add_net env 0%nat); [destruct (add_net env 1%nat) | |]; cbn [redis memories];
    try (rewrite Hbackend by tauto); rewrite ?searchInMemory_other_user by exact Hother;
    reflexivity.
Qed.

Lemma add_leaves_other_users_results_witness :
  (collectMatches healthy (Scenario.ask "tea" "u2")
     (addMemory (Scenario.working "0.4fzyo82mvyr" 1700000000004)
        (Scenario.note "tea with milk" "u1") TwoUsers.bothStores).1).2
  = (collectMatches healthy (Scenario.ask "tea" "u2") TwoUsers.bothStores).2.
Proof.
  apply (add_leaves_other_users_results
           (Scenario.working "0.4fzyo82mvyr" 1700000000004)
           (Scenario.note "tea with milk" "u1") TwoUsers.bothStores healthy
           (Scenario.ask "tea" "u2")).
  - exact TwoUsers_reachable.
  - reflexivity.
  - discriminate.
Defined.

(** ** What the backend holds *)

Lemma indexHasRecords_withRecord (memory : Memory) (r : Redis) :
  allBase36 (id memory) = true → keysMatchRecords r →
  indexHasRecords r → indexHasRecords (withRecord memory r).
Proof.
  intros Hid [_ Hsets] Hindex key memoryIds memoryId Hkey Hin.
  destruct (Hindex key memoryIds memoryId Hkey Hin) as (user & stored & -> & Hrecord & Hu & Hi).
  pose proof (Hsets _ _ _ Hkey Hin) as Hbase.
  destruct (decide (memoryKey (userId memory) (id memory) = memoryKey user memoryId))
    as [Hsame|Hsame].
  - exists user, memory. cbn. rewrite <- Hsame, lookup_insert_eq.
    apply memoryKey_inj in Hsame as [Hu' Hi']; [| assumption..].
    now repeat split.
  - exists user, stored. cbn. rewrite lookup_insert_ne by exact Hsame.
    now repeat split.
Qed.

Lemma indexHasRecords_withIndexEntry (memory : Memory) (r : Redis) :
  indexHasRecords (withRecord memory r) →
  indexHasRecords (withIndexEntry memory (withRecord memory r)).
Proof.
  intros Hindex key memoryIds memoryId. cbn [sets withIndexEntry strings].
  rewrite lookup_insert. case_decide as Hkey.
  - intros [= <-] Hin. apply elem_of_union in Hin as [Hin|Hin].
    + apply elem_of_singleton in Hin. subst memoryId.
      exists (userId memory), memory. repeat split; [now subst |].
      cbn. apply lookup_insert_eq.
    + unfold members in Hin.
      destruct (sets (withRecord memory r) !! searchKey (userId memory)) as [ids|] eqn:Eids;
        cbn in Hin; [| now apply not_elem_of_empty in Hin].
      subst key. exact (Hindex _ _ _ Eids Hin).
  - apply Hindex.
Qed.

(** X19: the record is written before the index entry, so on every server
    the operations can produce each entry of an index set has the record
    of a memory with that identifier and that user: the operations leave
    no dangling index entry, however their commands end. *)
Theorem reachable_index_has_records (s : Server) :
  reachable s → indexHasRecords (redis s).
Proof.
  induction 1 as [|env args s Hreach IH Hrandom|net args s _ IH|s _ IH].
  - intros key memoryIds memoryId. cbn. rewrite lookup_empty. discriminate.
  - pose proof (reachable_keysMatchRecords s Hreach) as Hkeys.
    assert (allBase36 (id (newMemory env args)) = true) as Hid
      by apply (substring_2_15_allBase36 _ Hrandom).
    pose proof (indexHasRecords_withRecord _ _ Hid Hkeys IH) as Hrecord.
    pose proof (indexHasRecords_withIndexEntry _ _ Hrecord) as Hentry.
    rewrite addMemory_state. cbn zeta. rewrite storeInDragonfly_cases.
    destruct (add_net env 0%nat); [destruct (add_net env 1%nat) | |]; assumption.
  - now rewrite searchMemories_state.
  - exact IH.
Qed.

Lemma reachable_index_has_records_witness : indexHasRecords (redis TwoUsers.bothStores).
Proof. apply (reachable_index_has_records TwoUsers.bothStores). exact TwoUsers_reachable. Defined.

(** X18: [addMemory] stores only records that the search can read back,
    so on every server the operations can produce a search whose commands
    all resolve is served by the Primary Store. *)
Theorem reachable_search_served_by_primary (net : Net) (search : SearchArgs) (s : Server) :
  reachable s → (∀ k, net k = Resolves) → searchedIn net search s = Primary.
Proof.
  intros Hreach Hnet. apply dangling_entries_skipped; [exact Hnet |].
  destruct (reachable_keysMatchRecords s Hreach) as [Hstrings _].
  intros memoryId _ Hbad. destruct (Hstrings _ _ Hbad) as (m & Hm & _). discriminate.
Qed.

Lemma reachable_search_served_by_primary_witness :
  searchedIn healthy (Scenario.ask "tea" "u1") TwoUsers.bothStores = Primary.
Proof.
  apply (reachable_search_served_by_primary healthy (Scenario.ask "tea" "u1")
           TwoUsers.bothStores).
  - exact TwoUsers_reachable.
  - reflexivity.
Defined.

(** ** The layout of the keys *)

(** X16: with identifiers made of radix-36 digits, two record keys are
    equal only for the same user and the same identifier, two index keys
    only for the same user, and a record key is never an index key. *)
Theorem keys_identify_user_and_identifier (u u' i i' : string) :
  allBase36 i = true → allBase36 i' = true →
  (memoryKey u i = memoryKey u' i' ↔ u = u' ∧ i = i')
  ∧ (searchKey u = searchKey u' ↔ u = u')
  ∧ memoryKey u i ≠ searchKey u'.
Proof.
  intros Hi Hi'. split; [| split].
  - split; [now apply memoryKey_inj | now intros [-> ->]].
  - split; [apply searchKey_inj | now intros ->].
  - apply memoryKey_not_searchKey.
Qed.

Lemma keys_identify_user_and_identifier_witness :
  memoryKey "a:b" "c" = memoryKey "a" "c" ↔ "a:b" = "a" ∧ "c" = "c".
Proof.
  apply (keys_identify_user_and_identifier "a:b" "a" "c" "c"); reflexivity.
Defined.

(** Identifiers with a colon would let two users share a key. *)
Example memoryKey_colon_clash : memoryKey "a" "b:c" = memoryKey "a:b" "c".
Proof. reflexivity. Qed.

(** ** What a query matches *)

Lemma includes_empty (s : string) : JS.includes s "" = true.
Proof. rewrite includes_unfold. now destruct s. Qed.

(** On ASCII texts lower-casing works character by character. *)
Lemma toLowerCase_append (a b : string) :
  JS.toLowerCase (a +:+ b) = JS.toLowerCase a +:+ JS.toLowerCase b.
Proof.
  induction a as [|x a IH]; [reflexivity |].
  rewrite append_cons. cbn [JS.toLowerCase]. now rewrite IH, append_cons.
Qed.

Lemma filter_all_true {A} (f : A → bool) (l : list A) :
  (∀ x, f x = true) → List.filter f l = l.
Proof.
  intros Hall. induction l as [|x l IH]; [reflexivity |].
  cbn. now rewrite Hall, IH.
Qed.

(** X9: the empty query matches every memory: a search with it collects
    every readable record of the user's index when the Primary Store
    serves it, and every memory of the user in the array when the Fallback
    Store does. *)
Theorem empty_query_matches_everything (net : Net) (search : SearchArgs) (s : Server) :
  search_query search = "" →
  (collectMatches net search s).2 =
  match searchedIn net search s with
  | Primary =>
      omap (lookupRecord (redis s) (schema_userId (search_userId search)))
        (elements (members (searchKey (schema_userId (search_userId search))) (redis s)))
  | Fallback =>
      filter (λ memory, userId memory = schema_userId (search_userId search)) (memories s)
  end.
Proof.
  intros Hempty.
  assert (∀ memory, matchesQuery (JS.toLowerCase (search_query search)) memory = true)
    as Hall by (intros memory; rewrite Hempty; apply includes_empty).
  destruct (searchedIn net search s) eqn:Hpath.
  - rewrite (searchedIn_Primary _ _ _ Hpath). unfold primaryMatches.
    now apply filter_all_true.
  - rewrite (searchedIn_Fallback _ _ _ Hpath). unfold searchInMemory.
    apply list_filter_iff. intros memory. rewrite Hall. tauto.
Qed.

Lemma empty_query_matches_everything_witness :
  (collectMatches unreachable {| search_query := ""; search_userId := Some "u1" |}
     TwoUsers.bothStores).2
  = filter (λ memory, userId memory = "u1") (memories TwoUsers.bothStores).
Proof.
  apply (empty_query_matches_everything unreachable
           {| search_query := ""; search_userId := Some "u1" |} TwoUsers.bothStores).
  reflexivity.
Defined.

(** X10: on texts of ASCII characters matching ignores the case of
    letters on both sides: a memory whose content contains the query,
    written in any letter case, is matched. *)
Theorem occurrence_in_any_case_matches (memory : Memory) (query written : string) :
  asciiText (content memory) = true →
  asciiText query = true →
  asciiText written = true →
  JS.includes (content memory) written = true →
  JS.toLowerCase written = JS.toLowerCase query →
  matchesQuery (JS.toLowerCase query) memory = true.
Proof.
  intros _ _ _ Hoccurs Hcase. unfold matchesQuery.
  destruct (includes_decompose _ _ Hoccurs) as (p & q & ->).
  rewrite !toLowerCase_append, Hcase. apply includes_infix.
Qed.

Lemma occurrence_in_any_case_matches_witness :
  matchesQuery (JS.toLowerCase "ocaml")
    {| id := "4fzyo82mvyr"; content := "Quinn loves OCaml"; userId := "u1";
       timestamp := 1700000000000 |} = true.
Proof.
  apply (occurrence_in_any_case_matches _ "ocaml" "OCaml"); reflexivity.
Defined.

(** ** What the digest shows *)

(** X11: the answer of a search is the text [No memories found for query:
    "<query>"] exactly when the search collected no match. *)
Theorem not_found_iff_no_match (net : Net) (search : SearchArgs) (s : Server) :
  digest (searchMemories net search s)
  = "No memories found for query: " +:+ quote +:+ search_query search +:+ quote
  ↔ (collectMatches net search s).2 = [].
Proof.
  unfold searchMemories, digest.
  destruct (collectMatches net search s) as [redis' found]. cbn [fst snd].
  unfold formatResults.
  pose proof (sortByTimestamp_length found) as Hlen.
  destruct found as [|m found]; [split; reflexivity |].
  destruct (sortByTimestamp (m :: found)) as [|first rest]; [discriminate |].
  cbn [length Nat.eqb text]. split; [| discriminate].
  unfold foundText. rewrite !append_cons. discriminate.
Qed.

(** X12: when a search collects at most ten matches, nothing is cut: the
    digest shows the date and the content of every one of them. *)
Theorem up_to_ten_matches_all_shown (net : Net) (search : SearchArgs) (s : Server)
    (memory : Memory) :
  (length (collectMatches net search s).2 ≤ 10)%nat →
  memory ∈ (collectMatches net search s).2 →
  JS.includes (digest (searchMemories net search s))
    ("[" +:+ JS.isoDate (timestamp memory) +:+ "] " +:+ content memory) = true.
Proof.
  intros Hfew Hin.
  apply (collected_is_shown net search s memory Hin).
  etransitivity; [apply length_filter | exact Hfew].
Qed.

Lemma up_to_ten_matches_all_shown_witness :
  JS.includes
    (digest (searchMemories healthy (Scenario.ask "tea" "u1") Ordering.threeNotes))
    ("[" +:+ JS.isoDate (timestamp Ordering.tuesday) +:+ "] " +:+ content Ordering.tuesday)
  = true.
Proof.
  apply (up_to_ten_matches_all_shown healthy (Scenario.ask "tea" "u1")
           Ordering.threeNotes Ordering.tuesday).
  - vm_compute. lia.
  - apply (bool_decide_unpack _). vm_compute. exact I.
Defined.

(** ** The order of the digest and the order of the index *)

Lemma filter_sameTime_distinct (t : Z) (l : list Memory) :
  NoDup (timestamp <$> l) → (length (filter (sameTime t) l) ≤ 1)%nat.
Proof.
  induction l as [|a l IH]; [cbn; lia |].
  rewrite fmap_cons, NoDup_cons. intros [Hfresh Hrest].
  rewrite filter_sameTime_cons. case_decide as Ht; [| auto].
  assert (filter (sameTime t) l = []) as ->; [| cbn; lia].
  destruct (filter (sameTime t) l) as [|x rest] eqn:E; [reflexivity | exfalso].
  assert (x ∈ filter (sameTime t) l) as Hx by (rewrite E; apply list_elem_of_here).
  apply list_elem_of_filter in Hx as [Hxt Hxl]. apply Hfresh.
  rewrite Ht, <- Hxt. now apply list_elem_of_fmap_2.
Qed.

(** X17: when the matches have pairwise distinct timestamps, the order in
    which they were collected (the order of the index set, the order of the
    array) has no influence on the order of the digest. *)
Theorem distinct_timestamps_fix_the_order (collected collected' : list Memory) :
  NoDup (timestamp <$> collected) →
  collected ≡ₚ collected' →
  sortByTimestamp collected = sortByTimestamp collected'.
Proof.
  intros Hdistinct Hperm.
  apply stable_sorted_unique; try apply sortByTimestamp_sorted.
  intros t. rewrite !sortByTimestamp_stable.
  pose proof (filter_sameTime_distinct t collected Hdistinct) as Hone.
  assert (filter (sameTime t) collected ≡ₚ filter (sameTime t) collected') as Hfilter
    by now rewrite Hperm.
  destruct (filter (sameTime t) collected) as [|x [|y rest]]; cbn in Hone; try lia.
  - now apply Permutation_nil_l in Hfilter.
  - now apply Permutation_singleton_l in Hfilter.
Qed.

Lemma distinct_timestamps_fix_the_order_witness :
  sortByTimestamp [Ordering.tuesday; Ordering.monday; Ordering.wednesday]
  = sortByTimestamp [Ordering.wednesday; Ordering.tuesday; Ordering.monday].
Proof.
  apply (distinct_timestamps_fix_the_order
           [Ordering.tuesday; Ordering.monday; Ordering.wednesday]
           [Ordering.wednesday; Ordering.tuesday; Ordering.monday]).
  - apply (bool_decide_unpack _). vm_compute. exact I.
  - apply (bool_decide_unpack _). vm_compute. exact I.
Defined.

(** ** The commands a search sends *)

Lemma scan_count (userId queryLower : string) (memoryIds : list string)
    (acc : list Memory) (net : Net) (n : nat) (r : Redis) :
  is_Some (scan userId queryLower memoryIds acc net n r).2 →
  (scan userId queryLower memoryIds acc net n r).1.1 = (n + length memoryIds)%nat.
Proof.
  revert acc n. induction memoryIds as [|x rest IH]; intros acc n.
  - intros _. cbn. lia.
  - rewrite scan_unfold. cbn [length].
    destruct (net n); [| intros [? [=]] | intros [? [=]]].
    destruct (strings r !! memoryKey userId x) as [[| |memory]|].
    + intros H. rewrite IH by exact H. lia.
    + intros [? [=]].
    + destruct (matchesQuery queryLower memory); intros H; rewrite IH by exact H; lia.
    + intros H. rewrite IH by exact H. lia.
Qed.

(** X20: a search served by the Primary Store has sent one SMEMBERS and
    one GET for every entry of the user's index set, whatever the query: it
    reads every record of the user to find the matching ones. *)
Theorem primary_search_reads_every_record (net : Net) (search : SearchArgs) (s : Server) :
  searchedIn net search s = Primary →
  (searchInDragonfly (schema_userId (search_userId search))
     (JS.toLowerCase (search_query search)) net 0%nat (redis s)).1.1
  = S (size (members (searchKey (schema_userId (search_userId search))) (redis s))).
Proof.
  rewrite searchedIn_attempt. unfold searchInDragonfly. rewrite bind_unfold.
  destruct (redis_smembers_inv (searchKey (schema_userId (search_userId search))) net 0%nat
              (redis s)) as [[-> _]|[-> _]]; [| discriminate].
  intros Hserved. rewrite scan_count.
  - reflexivity.
  - destruct (scan _ _ _ _ _ _ _).2; [eauto | discriminate].
Qed.

Lemma primary_search_reads_every_record_witness :
  let search := Scenario.ask "coffee" "u1" in
  (searchInDragonfly (schema_userId (search_userId search))
     (JS.toLowerCase (search_query search)) healthy 0%nat (redis Ordering.threeNotes)).1.1
  = S (size (members (searchKey (schema_userId (search_userId search)))
               (redis Ordering.threeNotes))).
Proof.
  apply (primary_search_reads_every_record healthy (Scenario.ask "coffee" "u1")
           Ordering.threeNotes).
  vm_compute. reflexivity.
Defined.

Example primary_search_reads_three_records :
  (searchInDragonfly "u1" "coffee" healthy 0%nat (redis Ordering.threeNotes)).1.1 = 4%nat.
Proof. vm_compute. reflexivity. Qed.
